(** * Disk propagation simulation: a shallow embedding of
      [diskflowsim/simulation.py] and the properties of its run loop.

    The class [DiskPropagation] becomes a record; its methods become
    computations in a state-and-exception monad over that record, so that a
    Python exception leaves the attributes as they were when it was raised.
    Arrays are lists (a 3-D history is a list of snapshots, a snapshot a list
    of annulus rows); numpy's shape checks, index checks and broadcasting on
    assignment are written out.

    Array entries are kept abstract behind the class [Scalar]: the structural
    results hold for every scalar type. The observation mask is a product,
    so what it leaves depends on the arithmetic: it is settled for binary64
    ([float64]), the type numpy uses, where [x * 1] is [x] but [x * 0] is a
    zero only for a finite [x]. The concrete scenarios are evaluated in
    binary64. *)

From Stdlib Require Import ZArith Lia Floats.
From stdpp Require Import base list.

Local Open Scope Z_scope.

(** ** Scalars *)

Class Scalar (F : Type) : Type := {
  fzero : F;
  fone : F;
  ftwo : F;
  fadd : F -> F -> F;
  fmul : F -> F -> F;
  fdiv : F -> F -> F
}.

(** numpy's float64. *)
#[export] Instance float64 : Scalar float := {
  fzero := 0%float;
  fone := 1%float;
  ftwo := 2%float;
  fadd := PrimFloat.add;
  fmul := PrimFloat.mul;
  fdiv := PrimFloat.div
}.

(** Exact integer grids (division truncates towards minus infinity). *)
#[export] Instance exactZ : Scalar Z := {
  fzero := 0;
  fone := 1;
  ftwo := 2;
  fadd := Z.add;
  fmul := Z.mul;
  fdiv := Z.div
}.

(** ** Exceptions and outcomes *)

Inductive exn : Set :=
| AttributeError
| TypeError
| IndexError
| ValueError
| StopIteration.

Inductive outcome (A : Type) : Type :=
| Ok (a : A)
| Raise (e : exn).
Arguments Ok {A} a.
Arguments Raise {A} e.

Definition completes {A S : Type} (r : S * outcome A) : Prop :=
  match r.2 with Ok _ => True | Raise _ => False end.

Definition raises {A S : Type} (r : S * outcome A) : Prop :=
  match r.2 with Ok _ => False | Raise _ => True end.

(** ** Array primitives *)

(** Python indexing of a sequence of length [len]: negative indices count
    from the end, anything outside [-len, len) is an IndexError. *)
Definition py_index (len : nat) (i : Z) : option nat :=
  if decide (0 <= i < Z.of_nat len) then Some (Z.to_nat i)
  else if decide (- Z.of_nat len <= i < 0) then Some (Z.to_nat (Z.of_nat len + i))
  else None.

(** The largest array size numpy can express ([NPY_MAX_INTP]), and the
    factor a dimension contributes to the byte count: a dimension of zero is
    skipped. *)
Definition npy_max_intp : Z := 9223372036854775807.

Definition nonzero_dim (x : Z) : Z := if decide (x = 0) then 1 else x.

Section Arrays.
Context {F : Type} `{Scalar F}.

(** [np.zeros((n, a, s))] and [np.ones((a, s))] of float64. numpy refuses
    a shape with a ValueError before it allocates anything: when a dimension
    is negative, and when the byte count, 8 times the product of the
    dimensions that are not zero, does not fit in a signed 64-bit size (so
    also when a single dimension is [2^63] or more). A shape that numpy
    accepts is taken to be allocated: running out of memory on the way is
    the machine's failure and is not modelled. *)
Definition np_zeros3 (n a s : Z) : option (list (list (list F))) :=
  if decide (0 <= n /\ 0 <= a /\ 0 <= s /\
             8 * (nonzero_dim n * nonzero_dim a * nonzero_dim s) <= npy_max_intp)
  then Some (replicate (Z.to_nat n)
               (replicate (Z.to_nat a) (replicate (Z.to_nat s) fzero)))
  else None.

Definition np_ones2 (a s : Z) : option (list (list F)) :=
  if decide (0 <= a /\ 0 <= s /\
             8 * (nonzero_dim a * nonzero_dim s) <= npy_max_intp)
  then Some (replicate (Z.to_nat a) (replicate (Z.to_nat s) fone))
  else None.

(** [np.triu(m)]: entries below the main diagonal become zero. *)
Definition np_triu (m : list (list F)) : list (list F) :=
  imap (fun a row => imap (fun s x => if decide (a <= s)%nat then x else fzero) row) m.

(** [state * trim_matrix]: the 2-D factor is broadcast over the first
    axis of the 3-D one. *)
Definition mul_broadcast (st : list (list (list F))) (m : list (list F))
  : list (list (list F)) :=
  (fun snap => zip_with (zip_with fmul) snap m) <$> st.

(** One row of [signal.convolve2d(in1, [[w0, w1]], "same")]: the taps are
    accumulated in kernel order from zero, the tap left of the first
    segment reads the fill value 0. [prev] is the entry before [row]. *)
Fixpoint convolve_row (w0 w1 : F) (prev : F) (row : list F) : list F :=
  match row with
  | [] => []
  | x :: rest =>
      fadd (fadd fzero (fmul x w0)) (fmul prev w1) :: convolve_row w0 w1 x rest
  end.

Definition convolve2d_same (in1 : list (list F)) (w0 w1 : F) : list (list F) :=
  convolve_row w0 w1 fzero <$> in1.

(** [np.roll(m, shift=1, axis=0)]. *)
Definition np_roll1 {X : Type} (m : list X) : list X :=
  match last m with
  | Some r => r :: take (length m - 1)%nat m
  | None => []
  end.

(** numpy's broadcasting of the right-hand side of an assignment
    [target[...] = src] along one axis: equal lengths, or length one. *)
Definition assign_row (target src : list F) : option (list F) :=
  if decide (length src = length target) then Some src
  else match src with
       | [x] => Some (replicate (length target) x)
       | _ => None
       end.

(** The same for a 2-D target; a 1-D right-hand side [v] is passed as the
    one-row matrix [[v]]. A target with no rows has no width in this
    representation, so nothing is checked against it. *)
Definition assign_2d (target src : list (list F)) : option (list (list F)) :=
  if decide (length src = length target)
  then mapM (fun p => assign_row p.1 p.2) (zip target src)
  else match src with
       | [r] => mapM (fun trow => assign_row trow r) target
       | _ => None
       end.
End Arrays.

(** ** The simulation object *)

Section Simulation.
Context {F : Type} `{Scalar F}.

(** A Python generator of segment vectors: the sequence it would yield and
    how many values have been pulled; [None] is where it stops. *)
Record Generator : Type := {
  gen_values : nat -> option (list F);
  gen_pos : nat
}.

Record DiskPropagation : Type := {
  r_in : Z;
  r_out : Z;
  num_anulus : Z;
  num_segments : Z;
  total_convolve_rate : F;
  time : Z;
  initial_state : option (list (list F));
  state : option (list (list (list F)));
  state_ : option (list (list (list F)));
  (** set by [initialize] only; [None] is the missing attribute *)
  initial_annulus_generator : option Generator
}.

Definition set_time (t : Z) (d : DiskPropagation) : DiskPropagation :=
  {| r_in := r_in d; r_out := r_out d; num_anulus := num_anulus d;
     num_segments := num_segments d;
     total_convolve_rate := total_convolve_rate d;
     time := t; initial_state := initial_state d; state := state d;
     state_ := state_ d;
     initial_annulus_generator := initial_annulus_generator d |}.

Definition set_initial_state (s : option (list (list F))) (d : DiskPropagation)
  : DiskPropagation :=
  {| r_in := r_in d; r_out := r_out d; num_anulus := num_anulus d;
     num_segments := num_segments d;
     total_convolve_rate := total_convolve_rate d;
     time := time d; initial_state := s; state := state d;
     state_ := state_ d;
     initial_annulus_generator := initial_annulus_generator d |}.

Definition set_state (s : option (list (list (list F)))) (d : DiskPropagation)
  : DiskPropagation :=
  {| r_in := r_in d; r_out := r_out d; num_anulus := num_anulus d;
     num_segments := num_segments d;
     total_convolve_rate := total_convolve_rate d;
     time := time d; initial_state := initial_state d; state := s;
     state_ := state_ d;
     initial_annulus_generator := initial_annulus_generator d |}.

Definition set_state_ (s : option (list (list (list F)))) (d : DiskPropagation)
  : DiskPropagation :=
  {| r_in := r_in d; r_out := r_out d; num_anulus := num_anulus d;
     num_segments := num_segments d;
     total_convolve_rate := total_convolve_rate d;
     time := time d; initial_state := initial_state d; state := state d;
     state_ := s;
     initial_annulus_generator := initial_annulus_generator d |}.

Definition set_generator (g : option Generator) (d : DiskPropagation)
  : DiskPropagation :=
  {| r_in := r_in d; r_out := r_out d; num_anulus := num_anulus d;
     num_segments := num_segments d;
     total_convolve_rate := total_convolve_rate d;
     time := time d; initial_state := initial_state d; state := state d;
     state_ := state_ d;
     initial_annulus_generator := g |}.

(** *** The monad of methods *)

Definition M (A : Type) : Type := DiskPropagation -> DiskPropagation * outcome A.

Definition ret {A} (a : A) : M A := fun d => (d, Ok a).

Definition bind {A B} (m : M A) (k : A -> M B) : M B :=
  fun d => match m d with
           | (d', Ok a) => k a d'
           | (d', Raise e) => (d', Raise e)
           end.

Definition raise {A} (e : exn) : M A := fun d => (d, Raise e).
Definition gets {A} (f : DiskPropagation -> A) : M A := fun d => (d, Ok (f d)).
Definition modify (f : DiskPropagation -> DiskPropagation) : M unit :=
  fun d => (f d, Ok tt).

(** [o] or the exception [e]. *)
Definition orRaise {A} (e : exn) (o : option A) : M A :=
  match o with Some a => ret a | None => raise e end.

Notation "'do' x <- m ; k" := (bind m (fun x => k))
  (at level 10, x name, m at level 100, k at level 200).
Notation "m ;; k" := (bind m (fun _ => k))
  (at level 100, k at level 200, right associativity).

(** [for _ in range(n): body] *)
Fixpoint for_range (n : nat) (body : M unit) : M unit :=
  match n with
  | O => ret tt
  | S n' => body ;; for_range n' body
  end.

(** [for _ in range(n): x = f(x)] *)
Fixpoint iterate {A} (n : nat) (f : A -> M A) (x : A) : M A :=
  match n with
  | O => ret x
  | S n' => do y <- f x; iterate n' f y
  end.

(** *** Methods *)

(** [__init__] *)
Definition construct (r_in0 r_out0 : Z) (rate : F) : DiskPropagation :=
  {| r_in := r_in0; r_out := r_out0;
     num_anulus := r_out0 - r_in0 + 1;
     num_segments := r_out0;
     total_convolve_rate := rate;
     time := 0;
     initial_state := None; state := None; state_ := None;
     initial_annulus_generator := None |}.

(** [next(self.initial_annulus_generator)] *)
Definition next_generator : M (list F) :=
  fun d =>
    match initial_annulus_generator d with
    | None => (d, Raise AttributeError)
    | Some g =>
        match gen_values g (gen_pos g) with
        | None => (d, Raise StopIteration)
        | Some v =>
            (set_generator
               (Some {| gen_values := gen_values g; gen_pos := S (gen_pos g) |}) d,
             Ok v)
        end
    end.

(** [self.state], which must be an array to be indexed. *)
Definition the_state : M (list (list (list F))) :=
  do s <- gets state; orRaise TypeError s.

(** [self.state[i]] *)
Definition state_getitem (i : Z) : M (list (list F)) :=
  do st <- the_state;
  do k <- orRaise IndexError (py_index (length st) i);
  orRaise IndexError (st !! k).

(** [self.state[i] = src] *)
Definition state_setitem (i : Z) (src : list (list F)) : M unit :=
  do st <- the_state;
  do k <- orRaise IndexError (py_index (length st) i);
  do target <- orRaise IndexError (st !! k);
  do new <- orRaise ValueError (assign_2d target src);
  modify (set_state (Some (<[k := new]> st))).

(** One entry of [weights = np.ones(2)[None, :] * rate / 2]. *)
Definition kernel_tap (rate : F) : F := fdiv (fmul fone rate) ftwo.

(** [_update], lines 124-131. *)
Definition _update (current_state : list (list F)) : M (list (list F)) :=
  do rate <- gets total_convolve_rate;
  let w := kernel_tap rate in
  let next_state := convolve2d_same current_state w w in
  let next_state := np_roll1 next_state in
  do v <- next_generator;
  match next_state with
  | [] => raise IndexError
  | row0 :: rest =>
      do r <- orRaise ValueError (assign_row row0 v);
      ret (r :: rest)
  end.

(** [_extract_state], lines 117-122. *)
Definition _extract_state : M (list (list (list F))) :=
  do a <- gets num_anulus;
  do s <- gets num_segments;
  do trim_matrix <- orRaise ValueError (np_ones2 a s);
  let trim_matrix := np_triu trim_matrix in
  do st <- the_state;
  ret (mul_broadcast st trim_matrix).

(** The seeding of slice 0, lines 104-107. *)
Definition seed_state : M unit :=
  do init <- gets initial_state;
  match init with
  | Some s0 => state_setitem 0 s0
  | None => do v <- next_generator; state_setitem 0 [v]
  end.

(** The body of the outer loop, lines 110-114. *)
Definition record_step (flow_velocity : Z) : M unit :=
  do t <- gets time;
  do cur <- state_getitem t;
  do next_state <- _update cur;
  do next_state <- iterate (Z.to_nat (flow_velocity - 1)) _update next_state;
  modify (fun d => set_time (time d + 1) d) ;;
  do t <- gets time;
  state_setitem t next_state.

(** [run_simulation], lines 85-115. *)
Definition run_simulation (num_steps flow_velocity : Z) : M unit :=
  do a <- gets num_anulus;
  do s <- gets num_segments;
  do zeros <- orRaise ValueError (np_zeros3 (num_steps + 1) a s);
  modify (set_state (Some zeros)) ;;
  seed_state ;;
  for_range (Z.to_nat num_steps) (record_step flow_velocity) ;;
  do obs <- _extract_state;
  modify (set_state_ (Some obs)).

(** [self.state[-1]] in [initialize]. *)
Definition state_last : M (list (list F)) := state_getitem (-1).

(** [initialize], lines 55-71. The factory is called with
    [num_segments]. *)
Definition initialize (initial_annulus_generator0 : Z -> Generator) : M unit :=
  do s <- gets num_segments;
  modify (set_generator (Some (initial_annulus_generator0 s))) ;;
  do a <- gets num_anulus;
  run_simulation a 1 ;;
  do final <- state_last;
  modify (set_initial_state (Some final)) ;;
  modify (set_time 0).

(** [observe], lines 73-76. *)
Definition observe {A} (observation_func : option (list (list (list F))) -> A)
  : M A :=
  do s <- gets state_; ret (observation_func s).

(** [reset], lines 78-83. *)
Definition reset : M unit :=
  modify (set_time 0) ;;
  modify (set_state None) ;;
  modify (set_state_ None).
End Simulation.

Arguments Generator F : clear implicits.
Arguments DiskPropagation F : clear implicits.

Notation "'do' x <- m ; k" := (bind m (fun x => k))
  (at level 10, x name, m at level 100, k at level 200).
Notation "m ;; k" := (bind m (fun _ => k))
  (at level 100, k at level 200, right associativity).

(** ** Vocabulary of the statements *)

Section Vocabulary.
Context {F : Type} `{Scalar F}.

(** Entry [m[a, s]] of a snapshot and [h[t, a, s]] of a history. *)
Definition entry2 (m : list (list F)) (a s : nat) : option F :=
  m !! a ≫= (.!! s).

Definition entry3 (h : list (list (list F))) (t a s : nat) : option F :=
  h !! t ≫= fun m => entry2 m a s.

(** A snapshot of shape [(a, s)] and a history of shape [(n, a, s)]. *)
Definition shape2 (a s : nat) (m : list (list F)) : Prop :=
  length m = a /\ Forall (fun row => length row = s) m.

Definition shape3 (n a s : nat) (h : list (list (list F))) : Prop :=
  length h = n /\ Forall (shape2 a s) h.

(** The generator [g] after [k] more pulls. *)
Definition advance_by (k : nat) (g : Generator F) : Generator F :=
  {| gen_values := gen_values g; gen_pos := (k + gen_pos g)%nat |}.

(** Step Function applications behind one recorded step. *)
Definition applications (flow_velocity : Z) : nat :=
  S (Z.to_nat (Z.max (flow_velocity - 1) 0)).

(** Pulls taken by the seeding of slice 0. *)
Definition seed_pulls (d : DiskPropagation F) : nat :=
  match initial_state d with Some _ => 0%nat | None => 1%nat end.

(** How slice 0 is seeded from [d]: the stored snapshot, or one pull,
    assigned to the freshly allocated slice [target]. *)
Definition seeded_from (d : DiskPropagation F) (target seed : list (list F)) : Prop :=
  match initial_state d with
  | Some s0 => assign_2d target s0 = Some seed
  | None => exists g v, initial_annulus_generator d = Some g /\
                        gen_values g (gen_pos g) = Some v /\
                        assign_2d target [v] = Some seed
  end.

(** A property of the attributes that a computation keeps, whether it
    returns or raises. *)
Definition preserves {A} (P : DiskPropagation F -> Prop) (c : M A) : Prop :=
  forall d, P d -> P (c d).1.

(** An object seeded with the snapshot [s0] of an [a] by [s] grid, at a
    time that is not negative. *)
Definition seeded_with (s0 : list (list F)) (a s : Z) (d : DiskPropagation F) : Prop :=
  initial_state d = Some s0 /\ num_anulus d = a /\ num_segments d = s /\
  0 <= time d.

(** One row through the smoothing stage of [_update]. *)
Definition smooth (rate : F) (row : list F) : list F :=
  convolve_row (kernel_tap rate) (kernel_tap rate) fzero row.

(** The vector that the [i]-th pull from now yields ([[]] past the end). *)
Definition pulled (g : Generator F) (i : nat) : list F :=
  default [] (gen_values g (gen_pos g + i)%nat).

(** The next [k] pulls of [g] exist and yield vectors of [s] entries. *)
Definition fed (g : Generator F) (k s : nat) : Prop :=
  forall i, (i < k)%nat ->
    exists v, gen_values g (gen_pos g + i)%nat = Some v /\ length v = s.

(** Row [a] of the snapshot [cur] after [k] Step Function applications fed
    by [g]: the first [k] rows come from the pulls, the latest on top, each
    smoothed once per annulus it has moved; the rows below are the rows of
    [cur] moved [k] annuli inward and smoothed [k] times. *)
Definition shifted_row (rate : F) (g : Generator F) (k : nat)
    (cur : list (list F)) (a : nat) : option (list F) :=
  if decide (a < k)%nat
  then Some (Nat.iter a (smooth rate) (pulled g (k - 1 - a)))
  else Nat.iter k (smooth rate) <$> cur !! (a - k)%nat.

(** The next [m] pulls of [g] are good and the one after them is not: it
    is missing, which [next] reports as [StopIteration], or it has neither
    [s] entries nor one, which the assignment reports as [ValueError]. *)
Definition fails_at (g : Generator F) (m s : nat) (e : exn) : Prop :=
  fed g m s /\
  match gen_values g (gen_pos g + m)%nat with
  | None => e = StopIteration
  | Some v => length v <> s /\ length v <> 1%nat /\ e = ValueError
  end.

(** The seed snapshot that [run_simulation] builds for [d] when the source
    is [g]: the stored snapshot, or the next pull in every row. *)
Definition seed_of (d : DiskPropagation F) (g : Generator F) : list (list F) :=
  match initial_state d with
  | Some s0 => s0
  | None => replicate (Z.to_nat (num_anulus d)) (pulled g 0)
  end.

(** The seed stored in [d], if any, has the shape of the grid. *)
Definition seed_fits (d : DiskPropagation F) : Prop :=
  match initial_state d with
  | Some s0 => shape2 (Z.to_nat (num_anulus d)) (Z.to_nat (num_segments d)) s0
  | None => True
  end.

(** A computation that neither reads nor writes the observed state: it
    runs the same with any [state_] in place, and leaves that one there. *)
Definition ignores_observed {A} (c : M A) : Prop :=
  forall s (d : DiskPropagation F), c (set_state_ s d) = (set_state_ s (c d).1, (c d).2).

(** A computation whose returning runs do not depend on the observed state
    they find. *)
Definition overwrites_observed {A} (c : M A) : Prop :=
  forall s (d : DiskPropagation F), completes (c d) -> c (set_state_ s d) = c d.

(** A property of the attributes that a computation keeps whenever it
    raises. *)
Definition keeps_on_raise {A} (P : DiskPropagation F -> Prop) (c : M A) : Prop :=
  forall d, P d -> raises (c d) -> P (c d).1.

(** The objects reachable from [d0] by calls of [run_simulation] and
    [reset], whether they return or raise. *)
Inductive followed_by (d0 : DiskPropagation F) : DiskPropagation F -> Prop :=
| followed_here : followed_by d0 d0
| followed_run d num_steps flow_velocity :
    followed_by d0 d ->
    followed_by d0 (run_simulation num_steps flow_velocity d).1
| followed_reset d :
    followed_by d0 d -> followed_by d0 (reset d).1.
End Vocabulary.

(** ** Concrete scenarios, in binary64 *)

(** A source that yields [[1, 1, 1]] on every pull. *)
Definition ones_forever : Generator float :=
  {| gen_values := fun _ => Some [1%float; 1%float; 1%float]; gen_pos := 0 |}.

(** [DiskPropagation(1, 3, 0)] whose source attribute holds [ones_forever]
    and on which [initialize] has not run. *)
Definition disk_rate0 : DiskPropagation float :=
  set_generator (Some ones_forever) (construct 1 3 0%float).

(** [DiskPropagation(1, 3)] after [initialize]. *)
Definition disk_ready : DiskPropagation float :=
  (initialize (fun _ => ones_forever) (construct 1 3 0.5%float)).1.

(** [DiskPropagation(1, 3, 2.0 ** 700)] after [initialize] with the same
    source: a finite rate and finite source values, large enough for the
    warm-up to overflow. *)
Definition disk_hot : DiskPropagation float :=
  (initialize (fun _ => ones_forever) (construct 1 3 0x1p700%float)).1.

(** The rows that occur in that scenario, and a snapshot to step from. *)
Definition ones_row : list float := [1%float; 1%float; 1%float].
Definition zeros_row : list float := [0%float; 0%float; 0%float].

Definition sample_snapshot : list (list float) :=
  [[1%float; 2%float; 3%float];
   [4%float; 5%float; 6%float];
   [7%float; 8%float; 9%float]].

(** A source that yields [[1, 1, 1]] twice and then stops, one whose third
    vector has two entries, and one that yields the one-entry vector [[7]]. *)
Definition two_pulls : Generator float :=
  {| gen_values := fun i => if (i <? 2)%nat then Some ones_row else None;
     gen_pos := 0 |}.

Definition bad_third : Generator float :=
  {| gen_values := fun i => if (i <? 2)%nat then Some ones_row
                            else Some [1%float; 1%float];
     gen_pos := 0 |}.

Definition sevens : Generator float :=
  {| gen_values := fun _ => Some [7%float]; gen_pos := 0 |}.

(** An observation function: the number of recorded slices. *)
Definition count_slices (o : option (list (list (list float)))) : option nat :=
  length <$> o.

(** [DiskPropagation(1, 3)] holding such a source, [initialize] not run. *)
Definition disk_with (g : Generator float) : DiskPropagation float :=
  set_generator (Some g) (construct 1 3 0.5%float).

(** The same over exact integers. *)
Definition ones_foreverZ : Generator Z :=
  {| gen_values := fun _ => Some [1; 1; 1]; gen_pos := 0 |}.

Definition disk_readyZ : DiskPropagation Z :=
  (initialize (fun _ => ones_foreverZ) (construct 1 3 2)).1.

(** ** Facts about the array primitives *)

Section ArrayFacts.
Context {F : Type} `{Scalar F}.
Implicit Types (m : list (list F)) (h : list (list (list F))) (row v : list F).

Lemma py_index_lt len i k : py_index len i = Some k -> (k < len)%nat.
Proof.
  unfold py_index. repeat case_decide; intros [= <-]; lia.
Qed.

Lemma py_index_nonneg len i :
  0 <= i -> py_index len i = if decide (i < Z.of_nat len) then Some (Z.to_nat i) else None.
Proof.
  intros Hi. unfold py_index. repeat case_decide; try reflexivity; lia.
Qed.

Lemma py_index_empty i : py_index 0 i = None.
Proof. unfold py_index. repeat case_decide; try reflexivity; simpl in *; lia. Qed.

Lemma assign_row_length (target src r : list F) :
  assign_row target src = Some r -> length r = length target.
Proof.
  unfold assign_row. case_decide as Hl.
  - intros [= <-]. exact Hl.
  - destruct src as [|x [|]]; try discriminate.
    intros [= <-]. apply length_replicate.
Qed.

Lemma assign_row_same (target src : list F) :
  length src = length target -> assign_row target src = Some src.
Proof. intros Hl. unfold assign_row. case_decide; [reflexivity | contradiction]. Qed.

Lemma assign_2d_rows (target src new : list (list F)) :
  assign_2d target src = Some new ->
  Forall2 (fun trow r => length r = length trow) target new.
Proof.
  unfold assign_2d. case_decide as Hl.
  - intros Hm%mapM_Some_1. revert src new Hl Hm.
    induction target as [|t target IH]; intros [|s src] new Hl Hm;
      simpl in *; try discriminate.
    + inversion Hm. constructor.
    + inversion Hm as [|? ? ? ? Hr Hrest]; subst. constructor.
      * eapply assign_row_length, Hr.
      * eapply IH; [|exact Hrest]. lia.
  - destruct src as [|r [|]]; try discriminate.
    intros Hm%mapM_Some_1. clear Hl.
    induction Hm as [|? ? ? ? Hr]; constructor; [|assumption].
    eapply assign_row_length, Hr.
Qed.

Lemma assign_2d_shape a s (target src new : list (list F)) :
  shape2 a s target -> assign_2d target src = Some new -> shape2 a s new.
Proof.
  intros [Hlen Hrows] Hnew%assign_2d_rows. split.
  - rewrite <- Hlen. symmetry. eapply Forall2_length, Hnew.
  - clear Hlen. induction Hnew as [|? ? ? ? Hr]; [constructor|].
    inversion Hrows; subst. constructor; [congruence | auto].
Qed.

Lemma assign_2d_same a s (target src : list (list F)) :
  shape2 a s target -> shape2 a s src -> assign_2d target src = Some src.
Proof.
  intros [Hlt Ht] [Hls Hs]. unfold assign_2d.
  case_decide as Hl; [|congruence]. apply mapM_Some_2. clear Hl.
  revert a src Hlt Hls Hs. induction Ht as [|t target Hrow Ht IH];
    intros a [|r src] Hlt Hls Hs; simpl in *; try (subst; discriminate).
  - constructor.
  - inversion Hs; subst. constructor.
    + simpl. apply assign_row_same. congruence.
    + eapply IH; eauto.
Qed.

(** A vector of the row length assigned to a 2-D target fills every row. *)
Lemma assign_2d_vector a s (target : list (list F)) v :
  shape2 a s target -> length v = s ->
  assign_2d target [v] = Some (replicate a v).
Proof.
  intros [Hlt Ht] Hv. unfold assign_2d. case_decide as Hl.
  - simpl in Hl. destruct target as [|t [|]]; try discriminate.
    subst a. simpl. inversion Ht; subst.
    rewrite assign_row_same by congruence. reflexivity.
  - apply mapM_Some_2. subst a. clear Hl.
    induction Ht as [|t target Hrow Ht IH]; simpl; constructor; [|exact IH].
    apply assign_row_same. congruence.
Qed.

Lemma np_zeros3_shape n a s h :
  np_zeros3 n a s = Some h ->
  0 <= n /\ 0 <= a /\ 0 <= s /\
  h = replicate (Z.to_nat n) (replicate (Z.to_nat a) (replicate (Z.to_nat s) fzero)) /\
  shape3 (Z.to_nat n) (Z.to_nat a) (Z.to_nat s) h.
Proof.
  unfold np_zeros3. case_decide as Hd; [|discriminate].
  intros [= <-]. destruct Hd as (? & ? & ? & ?). repeat split; try assumption.
  - apply length_replicate.
  - apply Forall_replicate. split; [apply length_replicate|].
    apply Forall_replicate, length_replicate.
Qed.

Lemma nonzero_dim_pos x : 0 <= x -> 1 <= nonzero_dim x.
Proof. intros Hx. unfold nonzero_dim. case_decide; lia. Qed.

(** A 2-D array fits whenever a 3-D array with the same last two
    dimensions and at least one slice does. *)
Lemma np_ones2_of_zeros3 n a s zeros :
  np_zeros3 n a s = Some zeros -> 1 <= n -> is_Some (np_ones2 a s).
Proof.
  unfold np_zeros3, np_ones2. case_decide as Hd; [|discriminate].
  intros _ Hn. destruct Hd as (_ & Ha & Hs & Hfit).
  case_decide as Hd2; [eauto|]. exfalso. apply Hd2.
  repeat split; try assumption.
  pose proof (nonzero_dim_pos a Ha). pose proof (nonzero_dim_pos s Hs).
  assert (nonzero_dim n = n) as Hnz by (unfold nonzero_dim; case_decide; lia).
  rewrite Hnz in Hfit. nia.
Qed.

Lemma convolve_row_length w0 w1 prev row :
  length (convolve_row w0 w1 prev row) = length row.
Proof. revert prev. induction row; intros; simpl; [reflexivity | f_equal; auto]. Qed.

Lemma convolve_row_lookup w0 w1 prev row s x :
  row !! s = Some x ->
  convolve_row w0 w1 prev row !! s =
    Some (fadd (fadd fzero (fmul x w0))
            (fmul (match s with O => prev | S s' => default fzero (row !! s') end) w1)).
Proof.
  revert prev s. induction row as [|y row IH]; intros prev [|s] Hx;
    simpl in *; try discriminate.
  - injection Hx as ->. reflexivity.
  - rewrite (IH y s Hx). destruct s as [|s']; simpl; [reflexivity|].
    reflexivity.
Qed.

Lemma np_roll1_length {X} (l : list X) : length (np_roll1 l) = length l.
Proof.
  unfold np_roll1. destruct (last l) eqn:Hl.
  - simpl. rewrite length_take. apply last_Some in Hl as (l' & ->).
    rewrite length_app. simpl. lia.
  - apply last_None in Hl. subst. reflexivity.
Qed.

Lemma np_roll1_head {X} (l : list X) : np_roll1 l !! 0%nat = last l.
Proof.
  unfold np_roll1. destruct (last l) eqn:Hl; [reflexivity|].
  apply last_None in Hl. subst. reflexivity.
Qed.

Lemma np_roll1_succ {X} (l : list X) a :
  (S a < length l)%nat -> np_roll1 l !! S a = l !! a.
Proof.
  intros Ha. unfold np_roll1. destruct (last l) eqn:Hl.
  - simpl. apply lookup_take_lt. lia.
  - apply last_None in Hl. subst. simpl in Ha. lia.
Qed.

(** The circular shift, in one statement: the row at [a] goes to
    [(a + 1) mod A], so the last one wraps to position 0. *)
Lemma np_roll1_lookup {X} (l : list X) a :
  (a < length l)%nat -> np_roll1 l !! ((a + 1) mod length l)%nat = l !! a.
Proof.
  intros Ha. destruct (decide (S a = length l)) as [He|Hne].
  - replace ((a + 1) mod length l)%nat with 0%nat.
    + rewrite np_roll1_head, last_lookup. f_equal. lia.
    + replace (a + 1)%nat with (length l) by lia.
      symmetry. apply Nat.Div0.mod_same.
  - rewrite Nat.mod_small by lia. replace (a + 1)%nat with (S a) by lia.
    apply np_roll1_succ. lia.
Qed.
End ArrayFacts.

(** ** Facts about the monad and the methods *)

Section MethodFacts.
Context {F : Type} `{Scalar F}.
Implicit Types (d : DiskPropagation F) (g : Generator F)
  (cur nxt m : list (list F)) (h : list (list (list F))) (v : list F).

Lemma bind_Ok {A B} (c : M A) (k : A -> M B) d d' b :
  bind c k d = (d', Ok b) ->
  exists d1 a, c d = (d1, Ok a) /\ k a d1 = (d', Ok b).
Proof.
  unfold bind. destruct (c d) as [d1 [a|e]]; [eauto | discriminate].
Qed.

Lemma bind_eq_Ok {A B} (c : M A) (k : A -> M B) d d1 a :
  c d = (d1, Ok a) -> bind c k d = k a d1.
Proof. intros Hc. unfold bind. rewrite Hc. reflexivity. Qed.

Lemma bind_eq_Raise {A B} (c : M A) (k : A -> M B) d d1 e :
  c d = (d1, Raise e) -> bind c k d = (d1, Raise e).
Proof. intros Hc. unfold bind. rewrite Hc. reflexivity. Qed.

Lemma gets_Ok {A} (f : DiskPropagation F -> A) d d' a :
  gets f d = (d', Ok a) -> d' = d /\ a = f d.
Proof. unfold gets. intros [= <- <-]. auto. Qed.

Lemma ret_Ok {A} (x : A) d d' a : ret x d = (d', Ok a) -> d' = d /\ a = x.
Proof. unfold ret. intros [= <- <-]. auto. Qed.

Lemma modify_Ok f d d' u : modify f d = (d', Ok u) -> d' = f d.
Proof. unfold modify. intros [= <-]. reflexivity. Qed.

Lemma orRaise_Ok {A} e (o : option A) d d' a :
  orRaise e o d = (d', Ok a) -> d' = d /\ o = Some a.
Proof.
  destruct o; unfold orRaise, ret, raise; [intros [= <- <-]; auto | discriminate].
Qed.

Lemma the_state_Ok d d' h : the_state d = (d', Ok h) -> d' = d /\ state d = Some h.
Proof.
  intros (d1 & s & [-> ->]%gets_Ok & [-> Hs]%orRaise_Ok)%bind_Ok. auto.
Qed.

Lemma advance_by_0 g : advance_by 0 g = g.
Proof. destruct g. reflexivity. Qed.

Lemma advance_by_add j k g : advance_by j (advance_by k g) = advance_by (j + k) g.
Proof. unfold advance_by. simpl. f_equal. lia. Qed.

Lemma set_generator_id d : set_generator (initial_annulus_generator d) d = d.
Proof. destruct d. reflexivity. Qed.

Lemma advance_by_0_fmap (o : option (Generator F)) : advance_by 0 <$> o = o.
Proof. destruct o; simpl; [rewrite advance_by_0|]; reflexivity. Qed.

(** Two objects with the same attributes are the same object. *)
Lemma disk_ext d1 d2 :
  r_in d1 = r_in d2 -> r_out d1 = r_out d2 ->
  num_anulus d1 = num_anulus d2 -> num_segments d1 = num_segments d2 ->
  total_convolve_rate d1 = total_convolve_rate d2 ->
  time d1 = time d2 -> initial_state d1 = initial_state d2 ->
  state d1 = state d2 -> state_ d1 = state_ d2 ->
  initial_annulus_generator d1 = initial_annulus_generator d2 ->
  d1 = d2.
Proof.
  destruct d1, d2. simpl. intros. subst. reflexivity.
Qed.

Lemma next_generator_Ok d d' v :
  next_generator d = (d', Ok v) ->
  exists g, initial_annulus_generator d = Some g /\
            gen_values g (gen_pos g) = Some v /\
            d' = set_generator (Some (advance_by 1 g)) d.
Proof.
  unfold next_generator. destruct (initial_annulus_generator d) as [g|]; [|discriminate].
  destruct (gen_values g (gen_pos g)) as [w|] eqn:Hw; [|discriminate].
  intros [= <- <-]. exists g. auto.
Qed.

Lemma state_getitem_Ok i d d' cur :
  state_getitem i d = (d', Ok cur) ->
  d' = d /\ exists h k, state d = Some h /\ py_index (length h) i = Some k /\
                        h !! k = Some cur.
Proof.
  intros (d1 & h & [-> Hh]%the_state_Ok & Hk)%bind_Ok.
  apply bind_Ok in Hk as (d2 & k & [-> Hk]%orRaise_Ok & [-> Hc]%orRaise_Ok).
  eauto 6.
Qed.

Lemma state_setitem_Ok i src d d' u :
  state_setitem i src d = (d', Ok u) ->
  exists h k target new,
    state d = Some h /\ py_index (length h) i = Some k /\
    h !! k = Some target /\ assign_2d target src = Some new /\
    d' = set_state (Some (<[k := new]> h)) d.
Proof.
  intros (d1 & h & [-> Hh]%the_state_Ok & Hk)%bind_Ok.
  apply bind_Ok in Hk as (d2 & k & [-> Hk]%orRaise_Ok & Ht).
  apply bind_Ok in Ht as (d3 & t & [-> Ht]%orRaise_Ok & Hn).
  apply bind_Ok in Hn as (d4 & new & [-> Hn]%orRaise_Ok & ->%modify_Ok).
  eauto 10.
Qed.

(** *** The Step Function *)

Lemma update_Ok cur d d' nxt :
  _update cur d = (d', Ok nxt) ->
  exists g v row0 rest r,
    initial_annulus_generator d = Some g /\
    gen_values g (gen_pos g) = Some v /\
    d' = set_generator (Some (advance_by 1 g)) d /\
    np_roll1 (convolve2d_same cur (kernel_tap (total_convolve_rate d))
                (kernel_tap (total_convolve_rate d))) = row0 :: rest /\
    assign_row row0 v = Some r /\
    nxt = r :: rest.
Proof.
  intros (d1 & rate & [-> ->]%gets_Ok & Hu)%bind_Ok.
  apply bind_Ok in Hu as (d2 & v & (g & Hg & Hv & ->)%next_generator_Ok & Hu).
  destruct (np_roll1 _) as [|row0 rest] eqn:Hroll; [discriminate|].
  apply bind_Ok in Hu as (d3 & r & [-> Hr]%orRaise_Ok & [-> ->]%ret_Ok).
  exists g, v, row0, rest, r. auto 10.
Qed.

Lemma convolve2d_same_shape a s cur w0 w1 :
  shape2 a s cur -> shape2 a s (convolve2d_same cur w0 w1).
Proof.
  intros [Hl Hr]. split.
  - unfold convolve2d_same. rewrite length_fmap. exact Hl.
  - unfold convolve2d_same. apply Forall_fmap.
    eapply Forall_impl; [exact Hr|]. intros row Hrow. simpl.
    rewrite convolve_row_length. exact Hrow.
Qed.

Lemma np_roll1_shape a s m : shape2 a s m -> shape2 a s (np_roll1 m).
Proof.
  intros [Hl Hr]. split; [rewrite np_roll1_length; exact Hl|].
  unfold np_roll1. destruct (last m) as [r|] eqn:Hlast; [|constructor].
  constructor.
  - rewrite Forall_forall in Hr. apply Hr. eapply last_Some_elem_of, Hlast.
  - apply Forall_take, Hr.
Qed.

Lemma update_shape a s cur d d' nxt :
  shape2 a s cur -> _update cur d = (d', Ok nxt) -> shape2 a s nxt.
Proof.
  intros Hs (g & v & row0 & rest & r & _ & _ & _ & Hroll & Hr & ->)%update_Ok.
  pose proof (np_roll1_shape a s _
    (convolve2d_same_shape a s cur (kernel_tap (total_convolve_rate d))
       (kernel_tap (total_convolve_rate d)) Hs)) as [Hl Hrows].
  rewrite Hroll in Hl, Hrows. apply Forall_cons in Hrows as [H0 Hrest].
  split; [exact Hl|]. constructor; [|exact Hrest].
  rewrite (assign_row_length _ _ _ Hr). exact H0.
Qed.

Lemma iterate_update_Ok k : forall cur d d' nxt g,
  initial_annulus_generator d = Some g ->
  iterate k _update cur d = (d', Ok nxt) ->
  d' = set_generator (Some (advance_by k g)) d.
Proof.
  induction k as [|k IH]; intros cur d d' nxt g Hg Hit; simpl in Hit.
  - apply ret_Ok in Hit as [-> _]. rewrite advance_by_0, <- Hg.
    symmetry. apply set_generator_id.
  - apply bind_Ok in Hit as (d1 & y & Hu & Hit).
    apply update_Ok in Hu as (g' & v & _ & _ & _ & Hg' & _ & -> & _).
    assert (g' = g) as -> by congruence.
    apply IH with (g := advance_by 1 g) in Hit; [|reflexivity].
    rewrite Hit, advance_by_add.
    apply disk_ext; cbn [r_in r_out num_anulus num_segments total_convolve_rate
      time initial_state state state_ initial_annulus_generator set_generator];
      try reflexivity.
    do 2 f_equal. lia.
Qed.

Lemma iterate_update_shape a s k : forall cur d d' nxt,
  shape2 a s cur -> iterate k _update cur d = (d', Ok nxt) -> shape2 a s nxt.
Proof.
  induction k as [|k IH]; intros cur d d' nxt Hs Hit; simpl in Hit.
  - apply ret_Ok in Hit as [_ ->]. exact Hs.
  - apply bind_Ok in Hit as (d1 & y & Hu & Hit).
    eapply IH; [|exact Hit]. eapply update_shape; eauto.
Qed.

(** [_update] reads the rate and the source, and nothing else. *)
Lemma update_agree cur d1 d2 :
  total_convolve_rate d1 = total_convolve_rate d2 ->
  initial_annulus_generator d1 = initial_annulus_generator d2 ->
  (_update cur d1).2 = (_update cur d2).2 /\
  total_convolve_rate (_update cur d1).1 = total_convolve_rate (_update cur d2).1 /\
  initial_annulus_generator (_update cur d1).1 =
    initial_annulus_generator (_update cur d2).1.
Proof.
  intros Hr Hg. unfold _update, bind, gets, next_generator.
  rewrite <- Hr, <- Hg.
  destruct (initial_annulus_generator d1) as [g|] eqn:Hg1;
    [|simpl; repeat split; congruence].
  destruct (gen_values g (gen_pos g)) as [v|];
    [|simpl; repeat split; congruence].
  destruct (np_roll1 _) as [|row0 rest]; [simpl; auto|].
  destruct (assign_row row0 v); simpl; auto.
Qed.

Lemma iterate_update_agree k : forall cur d1 d2,
  total_convolve_rate d1 = total_convolve_rate d2 ->
  initial_annulus_generator d1 = initial_annulus_generator d2 ->
  (iterate k _update cur d1).2 = (iterate k _update cur d2).2.
Proof.
  induction k as [|k IH]; intros cur d1 d2 Hr Hg; [reflexivity|].
  simpl. unfold bind at 1 2.
  destruct (update_agree cur d1 d2 Hr Hg) as (H2 & Hr' & Hg').
  destruct (_update cur d1) as [e1 [y1|x1]], (_update cur d2) as [e2 [y2|x2]];
    simpl in *; try congruence.
  injection H2 as ->. apply IH; assumption.
Qed.
End MethodFacts.

(** ** The run loop *)

Section RunLoop.
Context {F : Type} `{Scalar F}.
Implicit Types (d : DiskPropagation F) (g : Generator F)
  (cur nxt m : list (list F)) (h : list (list (list F))) (v : list F).

Local Arguments applications : simpl never.

Lemma applications_eq fv : applications fv = S (Z.to_nat (fv - 1)).
Proof.
  unfold applications. f_equal.
  destruct (Z.max_spec (fv - 1) 0) as [[? ->]|[? ->]]; [|reflexivity].
  destruct (fv - 1) eqn:E; try reflexivity. lia.
Qed.

Lemma record_step_Ok fv d d' u :
  record_step fv d = (d', Ok u) ->
  exists h i cur nxt g j target new,
    state d = Some h /\ py_index (length h) (time d) = Some i /\
    h !! i = Some cur /\
    initial_annulus_generator d = Some g /\
    iterate (applications fv) _update cur d =
      (set_generator (Some (advance_by (applications fv) g)) d, Ok nxt) /\
    py_index (length h) (time d + 1) = Some j /\ h !! j = Some target /\
    assign_2d target nxt = Some new /\
    d' = set_state (Some (<[j := new]> h))
           (set_time (time d + 1)
              (set_generator (Some (advance_by (applications fv) g)) d)).
Proof.
  intros (d1 & t & [-> ->]%gets_Ok & Hs)%bind_Ok.
  apply bind_Ok in Hs as (d1 & cur & [-> (h & i & Hh & Hi & Hc)]%state_getitem_Ok & Hs).
  apply bind_Ok in Hs as (d1 & n1 & Hu & Hs).
  apply bind_Ok in Hs as (d2 & nxt & Hit & Hs).
  assert (iterate (applications fv) _update cur d = (d2, Ok nxt)) as Hall.
  { rewrite applications_eq. simpl. unfold bind at 1. rewrite Hu. exact Hit. }
  pose proof Hu as (g & _ & _ & _ & _ & Hg & _)%update_Ok.
  pose proof (iterate_update_Ok _ _ _ _ _ _ Hg Hall) as ->.
  apply bind_Ok in Hs as (d3 & [] & ->%modify_Ok & Hs).
  apply bind_Ok in Hs as (d4 & t & [-> ->]%gets_Ok & Hs).
  apply state_setitem_Ok in Hs as (h' & j & target & new & Hh' & Hj & Ht & Hn & ->).
  simpl in Hh', Hj. rewrite Hh in Hh'. injection Hh' as <-.
  exists h, i, cur, nxt, g, j, target, new. simpl. auto 10.
Qed.

(** What [k] recorded steps do to the attributes, whatever [time] is. *)
Lemma loop_attributes fv n a s k : forall d d' h,
  for_range k (record_step fv) d = (d', Ok tt) ->
  state d = Some h -> shape3 n a s h ->
  exists h',
    shape3 n a s h' /\
    d' = set_state (Some h')
           (set_time (time d + Z.of_nat k)
              (set_generator
                 (advance_by (k * applications fv) <$> initial_annulus_generator d) d)).
Proof.
  induction k as [|k IH]; intros d d' h Hrun Hh Hshape; simpl in Hrun.
  - apply ret_Ok in Hrun as [-> _]. exists h. split; [exact Hshape|].
    change (0 * applications fv)%nat with 0%nat. rewrite advance_by_0_fmap.
    apply disk_ext; cbn [r_in r_out num_anulus num_segments total_convolve_rate
      time initial_state state state_ initial_annulus_generator set_generator
      set_state set_time]; try reflexivity; [lia | exact Hh].
  - apply bind_Ok in Hrun as (d1 & [] & Hstep & Hrun).
    apply record_step_Ok in Hstep
      as (h0 & i & cur & nxt & g & j & target & new & Hh0 & Hi & Hc & Hg & Hit & Hj & Ht & Hn & ->).
    rewrite Hh in Hh0. injection Hh0 as <-.
    assert (shape3 n a s (<[j := new]> h)) as Hshape1.
    { destruct Hshape as [Hlen Hall]. split; [rewrite length_insert; exact Hlen|].
      apply Forall_insert; [exact Hall|].
      eapply assign_2d_shape; [|exact Hn].
      rewrite Forall_lookup in Hall. eapply Hall, Ht. }
    eapply IH in Hrun as (h' & Hshape' & ->); [|reflexivity|exact Hshape1].
    exists h'. split; [exact Hshape'|].
    apply disk_ext; cbn [r_in r_out num_anulus num_segments total_convolve_rate
      time initial_state state state_ initial_annulus_generator set_generator
      set_state set_time]; try reflexivity; [lia|].
    rewrite Hg. cbn [fmap option_fmap option_map]. rewrite advance_by_add.
    do 2 f_equal. lia.
Qed.

(** The history written by [k] recorded steps that start at a time
    [0 <= time]: earlier slices are kept, and each new slice is the result
    of [applications fv] Step Function applications to the slice before
    it, with the source where the earlier steps left it. *)
Lemma loop_history fv n a s k : forall d d' h,
  for_range k (record_step fv) d = (d', Ok tt) ->
  state d = Some h -> shape3 n a s h -> 0 <= time d ->
  exists h',
    state d' = Some h' /\
    (forall i, (i <= Z.to_nat (time d))%nat -> h' !! i = h !! i) /\
    (forall j, (j < k)%nat ->
       exists g cur nxt,
         initial_annulus_generator d = Some g /\
         h' !! (Z.to_nat (time d) + j)%nat = Some cur /\
         h' !! (Z.to_nat (time d) + j + 1)%nat = Some nxt /\
         (iterate (applications fv) _update cur
            (set_generator (Some (advance_by (j * applications fv) g)) d)).2 = Ok nxt).
Proof.
  induction k as [|k IH]; intros d d' h Hrun Hh Hshape Htime; simpl in Hrun.
  - apply ret_Ok in Hrun as [-> _]. exists h. split; [exact Hh|].
    split; [reflexivity|]. intros j Hj. lia.
  - apply bind_Ok in Hrun as (d1 & [] & Hstep & Hrun).
    apply record_step_Ok in Hstep
      as (h0 & i & cur & nxt & g & j & target & new & Hh0 & Hi & Hc & Hg & Hit & Hj & Ht & Hn & ->).
    rewrite Hh in Hh0. injection Hh0 as <-.
    pose proof (py_index_lt _ _ _ Hj) as Hjlt.
    rewrite py_index_nonneg in Hi, Hj by lia.
    case_decide; [|discriminate]. case_decide; [|discriminate].
    injection Hi as <-. injection Hj as <-.
    destruct Hshape as [Hlen Hall].
    assert (shape2 a s cur) as Hcur.
    { rewrite Forall_lookup in Hall. eapply Hall, Hc. }
    assert (shape2 a s target) as Htarget.
    { rewrite Forall_lookup in Hall. eapply Hall, Ht. }
    assert (new = nxt) as ->.
    { pose proof (iterate_update_shape a s _ _ _ _ _ Hcur Hit) as Hnxt.
      rewrite (assign_2d_same a s target nxt Htarget Hnxt) in Hn. congruence. }
    assert (shape3 n a s (<[Z.to_nat (time d + 1) := nxt]> h)) as Hshape1.
    { split; [rewrite length_insert; exact Hlen|].
      apply Forall_insert; [exact Hall|].
      eapply iterate_update_shape; [exact Hcur | exact Hit]. }
    eapply IH in Hrun as (h' & Hh' & Hkeep & Hsteps);
      [|reflexivity|exact Hshape1|simpl; lia].
    cbn [time initial_annulus_generator set_state set_time set_generator]
      in Hkeep, Hsteps.
    replace (Z.to_nat (time d + 1)) with (S (Z.to_nat (time d))) in * by lia.
    exists h'. split; [exact Hh'|]. split.
    + intros i Hi. rewrite Hkeep by lia. apply list_lookup_insert_ne. lia.
    + intros [|j] Hjk.
      * exists g, cur, nxt. split; [exact Hg|].
        rewrite Nat.add_0_r. split; [|split].
        -- rewrite Hkeep by lia. rewrite list_lookup_insert_ne by lia. exact Hc.
        -- rewrite Hkeep by lia. replace (Z.to_nat (time d) + 1)%nat
             with (S (Z.to_nat (time d))) by lia.
           apply list_lookup_insert_eq. lia.
        -- change (0 * applications fv)%nat with 0%nat.
           rewrite advance_by_0, <- Hg, set_generator_id, Hit. reflexivity.
      * destruct (Hsteps j ltac:(lia)) as (g1 & cur1 & nxt1 & Hg1 & Hc1 & Hn1 & Hit1).
        injection Hg1 as <-.
        exists g, cur1, nxt1. split; [exact Hg|].
        replace (Z.to_nat (time d) + S j)%nat with (S (Z.to_nat (time d)) + j)%nat by lia.
        split; [exact Hc1|]. split; [exact Hn1|].
        rewrite <- Hit1. apply iterate_update_agree; [reflexivity|].
        cbn [initial_annulus_generator set_state set_time set_generator].
        rewrite advance_by_add. do 2 f_equal. lia.
Qed.
End RunLoop.

(** ** A returning call of [run_simulation], taken apart *)

Section RunSimulation.
Context {F : Type} `{Scalar F}.
Implicit Types (d : DiskPropagation F) (g : Generator F)
  (cur nxt m : list (list F)) (h : list (list (list F))) (v : list F).

Local Arguments applications : simpl never.

Lemma seed_state_Ok d d' u :
  seed_state d = (d', Ok u) ->
  exists h target seed,
    state d = Some h /\ h !! 0%nat = Some target /\
    seeded_from d target seed /\
    d' = set_state (Some (<[0%nat := seed]> h))
           (set_generator
              (advance_by (seed_pulls d) <$> initial_annulus_generator d) d).
Proof.
  intros (d1 & init & [-> ->]%gets_Ok & Hs)%bind_Ok.
  unfold seeded_from, seed_pulls. destruct (initial_state d) as [s0|] eqn:Hinit.
  - apply state_setitem_Ok in Hs as (h & k & target & new & Hh & Hk & Ht & Hn & ->).
    rewrite py_index_nonneg in Hk by lia. case_decide; [|discriminate].
    injection Hk as <-. exists h, target, new.
    rewrite advance_by_0_fmap, set_generator_id. auto.
  - apply bind_Ok in Hs as (d1 & v & (g & Hg & Hv & ->)%next_generator_Ok & Hs).
    apply state_setitem_Ok in Hs as (h & k & target & new & Hh & Hk & Ht & Hn & ->).
    rewrite py_index_nonneg in Hk by lia. case_decide; [|discriminate].
    injection Hk as <-. exists h, target, new. rewrite Hg. simpl in *. eauto 10.
Qed.

Lemma extract_state_Ok d d' obs :
  _extract_state d = (d', Ok obs) ->
  d' = d /\ exists ones h,
    np_ones2 (num_anulus d) (num_segments d) = Some ones /\
    state d = Some h /\ obs = mul_broadcast h (np_triu ones).
Proof.
  intros (d1 & a & [-> ->]%gets_Ok & He)%bind_Ok.
  apply bind_Ok in He as (d1 & s & [-> ->]%gets_Ok & He).
  apply bind_Ok in He as (d1 & ones & [-> Hones]%orRaise_Ok & He).
  apply bind_Ok in He as (d1 & h & [-> Hh]%the_state_Ok & [-> ->]%ret_Ok).
  eauto 6.
Qed.

Lemma run_simulation_returns n fv d d' u :
  run_simulation n fv d = (d', Ok u) ->
  exists zeros target seed h ones,
    0 <= n /\
    np_zeros3 (n + 1) (num_anulus d) (num_segments d) = Some zeros /\
    zeros !! 0%nat = Some target /\
    seeded_from d target seed /\
    np_ones2 (num_anulus d) (num_segments d) = Some ones /\
    shape3 (Z.to_nat (n + 1)) (Z.to_nat (num_anulus d)) (Z.to_nat (num_segments d)) h /\
    d' = set_state_ (Some (mul_broadcast h (np_triu ones)))
           (set_state (Some h)
              (set_time (time d + n)
                 (set_generator
                    (advance_by (seed_pulls d + Z.to_nat n * applications fv)
                       <$> initial_annulus_generator d) d))) /\
    (n = 0 -> h = [seed]) /\
    (0 <= time d ->
     h !! 0%nat = Some seed /\
     forall j, (j < Z.to_nat n)%nat ->
       exists g cur nxt,
         initial_annulus_generator d = Some g /\
         h !! (Z.to_nat (time d) + j)%nat = Some cur /\
         h !! (Z.to_nat (time d) + j + 1)%nat = Some nxt /\
         (iterate (applications fv) _update cur
            (set_generator
               (Some (advance_by (seed_pulls d + j * applications fv) g)) d)).2
         = Ok nxt).
Proof.
  intros (d1 & a & [-> ->]%gets_Ok & Hr)%bind_Ok.
  apply bind_Ok in Hr as (d1 & s & [-> ->]%gets_Ok & Hr).
  apply bind_Ok in Hr as (d1 & zeros & [-> Hz]%orRaise_Ok & Hr).
  apply bind_Ok in Hr as (d1 & [] & ->%modify_Ok & Hr).
  apply bind_Ok in Hr as (d1 & [] & Hseed & Hr).
  apply bind_Ok in Hr as (d2 & [] & Hloop & Hr).
  apply bind_Ok in Hr as (d3 & obs & [-> (ones & h & Hones & Hh & ->)]%extract_state_Ok
                          & ->%modify_Ok).
  apply seed_state_Ok in Hseed as (h0 & target & seed & Hh0 & Ht & Hfrom & ->).
  cbn [state set_state] in Hh0. injection Hh0 as <-.
  pose proof (np_zeros3_shape _ _ _ _ Hz) as (Hn1 & Ha & Hs & Hzeros & Hshape).
  assert (0 <= n) as Hn.
  { destruct (decide (0 <= n)) as [|Hneg]; [assumption|].
    assert (n + 1 = 0) as E by lia. rewrite E in Hzeros. subst zeros. discriminate. }
  assert (shape3 (Z.to_nat (n + 1)) (Z.to_nat (num_anulus d))
            (Z.to_nat (num_segments d)) (<[0%nat := seed]> zeros)) as Hshape1.
  { destruct Hshape as [Hlen Hall]. split; [rewrite length_insert; exact Hlen|].
    apply Forall_insert; [exact Hall|].
    assert (shape2 (Z.to_nat (num_anulus d)) (Z.to_nat (num_segments d)) target) as Htarget.
    { rewrite Forall_lookup in Hall. eapply Hall, Ht. }
    unfold seeded_from in Hfrom. cbn [initial_state set_state] in Hfrom.
    destruct (initial_state d).
    - eapply assign_2d_shape; eauto.
    - destruct Hfrom as (g & v & _ & _ & Hassign). eapply assign_2d_shape; eauto. }
  unfold seeded_from in Hfrom.
  cbn [initial_state initial_annulus_generator set_state] in Hfrom.
  pose proof (loop_attributes fv _ _ _ _ _ _ _ Hloop eq_refl Hshape1)
    as (h' & Hshape' & Hd2).
  assert (h' = h) as ->.
  { rewrite Hd2 in Hh. cbn [state set_state] in Hh. congruence. }
  assert (np_ones2 (num_anulus d) (num_segments d) = Some ones) as Hones'.
  { rewrite Hd2 in Hones. exact Hones. }
  clear Hones. rename Hones' into Hones.
  exists zeros, target, seed, h, ones.
  split; [exact Hn|]. split; [exact Hz|]. split; [exact Ht|].
  split; [exact Hfrom|]. split; [exact Hones|]. split; [exact Hshape'|].
  split; [|split].
  - rewrite Hd2. unfold seed_pulls.
    apply disk_ext; cbn [r_in r_out num_anulus num_segments total_convolve_rate
      time initial_state state state_ initial_annulus_generator set_generator
      set_state set_state_ set_time]; try reflexivity; [lia|].
    destruct (initial_annulus_generator d) as [g|]; [|reflexivity].
    cbn [fmap option_fmap option_map]. rewrite advance_by_add.
    do 2 f_equal. apply Nat.add_comm.
  - intros ->. change (Z.to_nat 0) with 0%nat in Hloop.
    cbn [for_range] in Hloop.
    apply ret_Ok in Hloop as [E _]. rewrite E in Hh. cbn [state set_state] in Hh.
    injection Hh as <-. subst zeros. reflexivity.
  - intros Htime.
    pose proof (loop_history fv _ _ _ _ _ _ _ Hloop eq_refl Hshape1 Htime)
      as (h' & Hh' & Hkeep & Hsteps).
    assert (h' = h) as -> by congruence.
    cbn [time initial_annulus_generator set_state set_generator] in Hkeep, Hsteps.
    split.
    + rewrite Hkeep by lia. apply list_lookup_insert_eq.
      apply lookup_lt_Some in Ht. exact Ht.
    + intros j Hj. destruct (Hsteps j Hj) as (g1 & cur & nxt & Hg1 & Hc & Hx & Hit).
      destruct (initial_annulus_generator d) as [g|] eqn:Hg; [|discriminate].
      cbn [fmap option_fmap option_map] in Hg1. injection Hg1 as <-.
      exists g, cur, nxt. split; [reflexivity|]. split; [exact Hc|].
      split; [exact Hx|]. rewrite <- Hit.
      apply iterate_update_agree; [reflexivity|].
      cbn [initial_annulus_generator set_state set_generator].
      rewrite advance_by_add. do 2 f_equal. unfold seed_pulls.
      cbn [initial_state set_state]. apply Nat.add_comm.
Qed.
End RunSimulation.

(** ** Properties kept across returning and raising calls *)

Section Preservation.
Context {F : Type} `{Scalar F}.
Variable P : DiskPropagation F -> Prop.
Hypothesis P_state : forall s d, P d -> P (set_state s d).
Hypothesis P_state_ : forall s d, P d -> P (set_state_ s d).
Hypothesis P_generator : forall g d, P d -> P (set_generator g d).
Hypothesis P_tick : forall d, P d -> P (set_time (time d + 1) d).

Lemma preserves_bind {A B} (c : M A) (k : A -> M B) :
  preserves P c -> (forall a, preserves P (k a)) -> preserves P (bind c k).
Proof.
  intros Hc Hk d Hd. unfold bind. specialize (Hc d Hd).
  destruct (c d) as [d1 [a|e]]; simpl in *; [apply Hk, Hc | exact Hc].
Qed.

Lemma preserves_gets {A} (f : DiskPropagation F -> A) : preserves P (gets f).
Proof. intros d Hd. exact Hd. Qed.

Lemma preserves_ret {A} (a : A) : preserves P (ret a).
Proof. intros d Hd. exact Hd. Qed.

Lemma preserves_orRaise {A} e (o : option A) : preserves P (orRaise e o).
Proof. intros d Hd. destruct o; exact Hd. Qed.

Lemma preserves_modify f : (forall d, P d -> P (f d)) -> preserves P (modify f).
Proof. intros Hf d Hd. apply Hf, Hd. Qed.

Lemma preserves_for_range n (body : M unit) :
  preserves P body -> preserves P (for_range n body).
Proof.
  intros Hb. induction n as [|n IH]; simpl.
  - apply preserves_ret.
  - apply preserves_bind; [exact Hb | intros _; exact IH].
Qed.

Lemma preserves_iterate {A} n (f : A -> M A) :
  (forall x, preserves P (f x)) -> forall x, preserves P (iterate n f x).
Proof.
  intros Hf. induction n as [|n IH]; intros x; simpl.
  - apply preserves_ret.
  - apply preserves_bind; [apply Hf | exact IH].
Qed.

Lemma preserves_next_generator : preserves P next_generator.
Proof.
  intros d Hd. unfold next_generator.
  destruct (initial_annulus_generator d) as [g|]; [|exact Hd].
  destruct (gen_values g (gen_pos g)); [|exact Hd].
  simpl. apply P_generator, Hd.
Qed.

Lemma preserves_the_state : preserves P the_state.
Proof. apply preserves_bind; [apply preserves_gets | intros; apply preserves_orRaise]. Qed.

Lemma preserves_state_getitem i : preserves P (state_getitem i).
Proof.
  apply preserves_bind; [apply preserves_the_state | intros st].
  apply preserves_bind; intros; apply preserves_orRaise.
Qed.

Lemma preserves_state_setitem i src : preserves P (state_setitem i src).
Proof.
  apply preserves_bind; [apply preserves_the_state | intros st].
  apply preserves_bind; [apply preserves_orRaise | intros k].
  apply preserves_bind; [apply preserves_orRaise | intros target].
  apply preserves_bind; [apply preserves_orRaise | intros new].
  apply preserves_modify. intros d. apply P_state.
Qed.

Lemma preserves_update cur : preserves P (_update cur).
Proof.
  apply preserves_bind; [apply preserves_gets | intros rate].
  apply preserves_bind; [apply preserves_next_generator | intros v].
  destruct (np_roll1 _) as [|row0 rest]; [intros d Hd; exact Hd|].
  apply preserves_bind; [apply preserves_orRaise | intros; apply preserves_ret].
Qed.

Lemma preserves_record_step fv : preserves P (record_step fv).
Proof.
  apply preserves_bind; [apply preserves_gets | intros t].
  apply preserves_bind; [apply preserves_state_getitem | intros cur].
  apply preserves_bind; [apply preserves_update | intros nxt].
  apply preserves_bind; [apply preserves_iterate, preserves_update | intros nxt'].
  apply preserves_bind; [apply preserves_modify, P_tick | intros _].
  apply preserves_bind; [apply preserves_gets | intros t'].
  apply preserves_state_setitem.
Qed.

Lemma preserves_seed_state : preserves P seed_state.
Proof.
  apply preserves_bind; [apply preserves_gets | intros [s0|]].
  - apply preserves_state_setitem.
  - apply preserves_bind; [apply preserves_next_generator | intros v].
    apply preserves_state_setitem.
Qed.

Lemma preserves_extract_state : preserves P _extract_state.
Proof.
  apply preserves_bind; [apply preserves_gets | intros a].
  apply preserves_bind; [apply preserves_gets | intros s].
  apply preserves_bind; [apply preserves_orRaise | intros ones].
  apply preserves_bind; [apply preserves_the_state | intros; apply preserves_ret].
Qed.

Lemma preserves_run_simulation n fv : preserves P (run_simulation n fv).
Proof.
  apply preserves_bind; [apply preserves_gets | intros a].
  apply preserves_bind; [apply preserves_gets | intros s].
  apply preserves_bind; [apply preserves_orRaise | intros zeros].
  apply preserves_bind; [apply preserves_modify; intros d; apply P_state | intros _].
  apply preserves_bind; [apply preserves_seed_state | intros _].
  apply preserves_bind; [apply preserves_for_range, preserves_record_step | intros _].
  apply preserves_bind; [apply preserves_extract_state | intros obs].
  apply preserves_modify. intros d. apply P_state_.
Qed.
End Preservation.

(** ** The time cursor, the history and its seed *)

Section Claims.
Context {F : Type} `{Scalar F}.
Implicit Types (d : DiskPropagation F) (g : Generator F)
  (cur nxt m : list (list F)) (h : list (list (list F))) (v : list F).

Local Arguments applications : simpl never.

Lemma completes_inv {A} (r : DiskPropagation F * outcome A) :
  completes r -> exists a, r = (r.1, Ok a).
Proof. destruct r as [d' [a|e]]; simpl; [eauto | intros []]. Qed.

Lemma state_setitem_empty i (src : list (list F)) d :
  state d = Some [] -> state_setitem i src d = (d, Raise IndexError).
Proof.
  intros Hd. unfold state_setitem.
  rewrite (bind_eq_Ok _ _ d d []).
  2:{ unfold the_state. rewrite (bind_eq_Ok _ _ d d (Some []));
        [reflexivity | unfold gets; rewrite Hd; reflexivity]. }
  apply bind_eq_Raise. cbn [length]. rewrite py_index_empty. reflexivity.
Qed.

(** Seeding an empty history raises and leaves the object as it found it,
    up to the pull it may have taken. *)
Lemma seed_state_empty d :
  state d = Some [] ->
  exists e, seed_state d =
    (set_generator (initial_annulus_generator (seed_state d).1) d, Raise e).
Proof.
  intros Hd. unfold seed_state.
  rewrite (bind_eq_Ok _ _ d d (initial_state d)) by reflexivity.
  destruct (initial_state d) as [s0|].
  - rewrite (state_setitem_empty 0 s0 d Hd). cbn [fst initial_annulus_generator].
    rewrite set_generator_id. eauto.
  - unfold bind, next_generator.
    destruct (initial_annulus_generator d) as [g|] eqn:Hg.
    + destruct (gen_values g (gen_pos g)) as [v|].
      * rewrite state_setitem_empty by exact Hd.
        cbn [fst initial_annulus_generator set_generator].
        exists IndexError. f_equal.
      * cbn [fst]. rewrite Hg, <- Hg, set_generator_id. eauto.
    + cbn [fst]. rewrite Hg, <- Hg, set_generator_id. eauto.
Qed.

(** C1, as the code has it: [run_simulation] never sets [time] back. A
    call that returns has advanced [time] by [num_steps] from the value it
    found, so [time] equals [num_steps] after a call that began at time 0
    (a fresh object, or one left by [initialize] or [reset]). *)
Theorem run_simulation_advances_time (num_steps flow_velocity : Z) d :
  completes (run_simulation num_steps flow_velocity d) ->
  time (run_simulation num_steps flow_velocity d).1 = time d + num_steps /\
  (time d = 0 -> time (run_simulation num_steps flow_velocity d).1 = num_steps).
Proof.
  intros (u & Hrun)%completes_inv.
  apply run_simulation_returns in Hrun
    as (zeros & target & seed & h & ones & _ & _ & _ & _ & _ & _ & -> & _).
  split; [reflexivity|]. intros Ht. simpl. lia.
Qed.

(** C3, as the code has it: nothing validates the parameters. A negative
    [num_steps] makes the call raise: below -1 in the allocation, which
    leaves the object untouched, and at -1 when slice 0 of the empty
    history that was allocated is seeded (on a grid whose sizes are not
    negative and within numpy's size limit, so that the empty history is
    allocated). [flow_velocity] is not checked: every value up to 1 runs
    exactly as [flow_velocity = 1] does. *)
Theorem run_simulation_degenerate_parameters (num_steps flow_velocity : Z) d :
  (num_steps < 0 -> raises (run_simulation num_steps flow_velocity d)) /\
  (num_steps < -1 ->
     run_simulation num_steps flow_velocity d = (d, Raise ValueError)) /\
  (num_steps = -1 -> 0 <= num_anulus d -> 0 <= num_segments d ->
     8 * (nonzero_dim (num_anulus d) * nonzero_dim (num_segments d)) <= npy_max_intp ->
     state (run_simulation num_steps flow_velocity d).1 = Some []) /\
  (flow_velocity <= 1 ->
     run_simulation num_steps flow_velocity d = run_simulation num_steps 1 d).
Proof.
  split; [|split; [|split]].
  - intros Hneg. unfold raises.
    destruct (run_simulation num_steps flow_velocity d) as [d' [u|e]] eqn:Hrun;
      [|exact I].
    apply run_simulation_returns in Hrun as (? & ? & ? & ? & ? & Hn & _). lia.
  - intros Hneg. unfold run_simulation, bind, gets, np_zeros3.
    case_decide as Hd; [destruct Hd; lia | reflexivity].
  - intros -> Ha Hs Hfit. unfold run_simulation.
    rewrite (bind_eq_Ok _ _ d d (num_anulus d)) by reflexivity.
    rewrite (bind_eq_Ok _ _ d d (num_segments d)) by reflexivity.
    rewrite (bind_eq_Ok _ _ d d []).
    2:{ unfold np_zeros3. case_decide as Hd; [reflexivity|]. exfalso. apply Hd.
        change (nonzero_dim (-1 + 1)) with 1. repeat split; lia. }
    rewrite (bind_eq_Ok _ _ d (set_state (Some []) d) tt) by reflexivity.
    destruct (seed_state_empty (set_state (Some []) d) eq_refl) as (e & He).
    rewrite (bind_eq_Raise _ _ _ _ _ He). reflexivity.
  - intros Hfv. unfold run_simulation, record_step.
    replace (Z.to_nat (flow_velocity - 1)) with (Z.to_nat (1 - 1)); [reflexivity|].
    simpl. destruct (flow_velocity - 1) eqn:E; try reflexivity. lia.
Qed.

(** C8: a call that returns leaves a history of exactly [num_steps + 1]
    slices, each of [num_anulus] rows of [num_segments] entries, and the
    observed state is that history times the upper-triangular mask. For
    [num_steps = 0] the history is the seed snapshot alone. *)
Theorem run_simulation_history_shape (num_steps flow_velocity : Z) d :
  0 <= num_steps ->
  completes (run_simulation num_steps flow_velocity d) ->
  exists h ones,
    state (run_simulation num_steps flow_velocity d).1 = Some h /\
    Z.of_nat (length h) = num_steps + 1 /\
    (forall t snap, h !! t = Some snap ->
       Z.of_nat (length snap) = num_anulus d /\
       forall a row, snap !! a = Some row -> Z.of_nat (length row) = num_segments d) /\
    np_ones2 (num_anulus d) (num_segments d) = Some ones /\
    state_ (run_simulation num_steps flow_velocity d).1 =
      Some (mul_broadcast h (np_triu ones)) /\
    (num_steps = 0 ->
       exists seed, h = [seed] /\
         seeded_from d
           (replicate (Z.to_nat (num_anulus d))
              (replicate (Z.to_nat (num_segments d)) fzero)) seed).
Proof.
  intros Hsteps (u & Hrun)%completes_inv.
  apply run_simulation_returns in Hrun
    as (zeros & target & seed & h & ones & _ & Hz & Ht & Hfrom & Hones & Hshape & -> & H0 & _).
  apply np_zeros3_shape in Hz as (_ & Ha & Hs & -> & _).
  exists h, ones. cbn [state state_ set_state set_state_].
  destruct Hshape as [Hlen Hall]. rewrite Forall_lookup in Hall.
  split; [reflexivity|]. split; [lia|]. split; [|split; [exact Hones|split; [reflexivity|]]].
  - intros t snap Hsnap. destruct (Hall _ _ Hsnap) as [Hl Hrows]. split; [lia|].
    intros a row Hrow. rewrite Forall_lookup in Hrows.
    rewrite (Hrows _ _ Hrow). lia.
  - intros ->. exists seed. split; [auto|].
    rewrite lookup_replicate in Ht. destruct Ht as [-> _]. exact Hfrom.
Qed.

(** C9: [reset] returns, puts [time] at 0 and drops the history and the
    observed state; every other attribute is as before, the seed snapshot
    and the source with its position among them. *)
Theorem reset_frame d :
  completes (reset d) /\
  time (reset d).1 = 0 /\
  state (reset d).1 = None /\
  state_ (reset d).1 = None /\
  initial_state (reset d).1 = initial_state d /\
  initial_annulus_generator (reset d).1 = initial_annulus_generator d /\
  r_in (reset d).1 = r_in d /\
  r_out (reset d).1 = r_out d /\
  num_anulus (reset d).1 = num_anulus d /\
  num_segments (reset d).1 = num_segments d /\
  total_convolve_rate (reset d).1 = total_convolve_rate d.
Proof. unfold completes. simpl. repeat split. Qed.

(** C10: with no stored initial state, the seed snapshot is one pull of
    the source, a vector of [num_segments] entries, copied into every
    annulus row; seeding takes that one pull and no other. *)
Theorem seed_broadcasts_one_pull (num_steps flow_velocity : Z) d g v :
  initial_state d = None ->
  initial_annulus_generator d = Some g ->
  gen_values g (gen_pos g) = Some v ->
  Z.of_nat (length v) = num_segments d ->
  0 <= time d ->
  completes (run_simulation num_steps flow_velocity d) ->
  exists h,
    state (run_simulation num_steps flow_velocity d).1 = Some h /\
    h !! 0%nat = Some (replicate (Z.to_nat (num_anulus d)) v) /\
    (forall a s, Z.of_nat a < num_anulus d -> entry3 h 0 a s = v !! s) /\
    seed_pulls d = 1%nat /\
    initial_annulus_generator (run_simulation num_steps flow_velocity d).1 =
      Some (advance_by (1 + Z.to_nat num_steps * applications flow_velocity) g).
Proof.
  intros Hinit Hg Hv Hlen Htime (u & Hrun)%completes_inv.
  apply run_simulation_returns in Hrun
    as (zeros & target & seed & h & ones & _ & Hz & Ht & Hfrom & _ & _ & -> & _ & Hhist).
  destruct (Hhist Htime) as [Hseed _].
  apply np_zeros3_shape in Hz as (_ & Ha & Hs & -> & _).
  rewrite lookup_replicate in Ht. destruct Ht as [-> _].
  unfold seeded_from in Hfrom. rewrite Hinit in Hfrom.
  destruct Hfrom as (g' & v' & Hg' & Hv' & Hassign).
  assert (g' = g) as -> by congruence. assert (v' = v) as -> by congruence.
  rewrite (assign_2d_vector (Z.to_nat (num_anulus d)) (Z.to_nat (num_segments d)))
    in Hassign.
  2:{ split; [apply length_replicate|]. apply Forall_replicate, length_replicate. }
  2:{ lia. }
  injection Hassign as <-.
  exists h. cbn [state initial_annulus_generator set_state set_state_ set_generator].
  split; [reflexivity|]. split; [exact Hseed|]. split; [|split].
  - intros a s Ha'. unfold entry3. rewrite Hseed. simpl. unfold entry2.
    rewrite lookup_replicate_2 by lia. reflexivity.
  - unfold seed_pulls. rewrite Hinit. reflexivity.
  - rewrite Hg. unfold seed_pulls. rewrite Hinit. reflexivity.
Qed.
End Claims.


(** ** The Step Function and the recorded steps *)

Section StepFunction.
Context {F : Type} `{Scalar F}.
Implicit Types (d : DiskPropagation F) (g : Generator F)
  (cur nxt m : list (list F)) (h : list (list (list F))) (v : list F).

Local Arguments applications : simpl never.

Lemma entry2_convolve2d_same cur w0 w1 a s x :
  entry2 cur a s = Some x ->
  entry2 (convolve2d_same cur w0 w1) a s =
    Some (fadd (fadd fzero (fmul x w0))
            (fmul (match s with
                   | O => fzero
                   | S s' => default fzero (entry2 cur a s')
                   end) w1)).
Proof.
  unfold entry2, convolve2d_same. rewrite list_lookup_fmap.
  destruct (cur !! a) as [row|]; simpl; [|discriminate].
  apply convolve_row_lookup.
Qed.

(** C6: one invocation of [_update] on a snapshot of [A >= 1] rows of [S]
    entries, when the source yields a vector of [S] entries. It returns;
    (1) the smoothing blends each entry with its predecessor in the row
    through the two taps of the kernel, each of them [ones * rate / 2], that
    is [rate / 2], reading zero left of the first segment; (2) the rows are
    rolled by one, row [a] going to [(a+1) mod A]; (3) row 0 of the result is
    the pulled vector. The object changes only in that the source has moved
    by one pull, so the history it holds, the input snapshot included, is as
    before. *)
Theorem update_step_function cur d g v (A S : nat) :
  shape2 A S cur -> (0 < A)%nat ->
  initial_annulus_generator d = Some g ->
  gen_values g (gen_pos g) = Some v ->
  length v = S ->
  exists nxt,
    _update cur d = (set_generator (Some (advance_by 1 g)) d, Ok nxt) /\
    (forall a s x, entry2 cur a s = Some x ->
       entry2 (convolve2d_same cur (fdiv (fmul fone (total_convolve_rate d)) ftwo)
                 (fdiv (fmul fone (total_convolve_rate d)) ftwo)) a s =
         Some (fadd (fadd fzero (fmul x (fdiv (fmul fone (total_convolve_rate d)) ftwo)))
                 (fmul (match s with
                        | O => fzero
                        | S s' => default fzero (entry2 cur a s')
                        end) (fdiv (fmul fone (total_convolve_rate d)) ftwo)))) /\
    (forall a, (a < A)%nat ->
       np_roll1 (convolve2d_same cur (fdiv (fmul fone (total_convolve_rate d)) ftwo)
                   (fdiv (fmul fone (total_convolve_rate d)) ftwo)) !! ((a + 1) mod A)%nat =
       convolve2d_same cur (fdiv (fmul fone (total_convolve_rate d)) ftwo)
         (fdiv (fmul fone (total_convolve_rate d)) ftwo) !! a) /\
    nxt = <[0%nat := v]>
            (np_roll1 (convolve2d_same cur (fdiv (fmul fone (total_convolve_rate d)) ftwo)
                         (fdiv (fmul fone (total_convolve_rate d)) ftwo))) /\
    shape2 A S nxt /\
    state (_update cur d).1 = state d /\
    initial_annulus_generator (_update cur d).1 = Some (advance_by 1 g).
Proof.
  intros Hshape HA Hg Hv Hlen.
  change (fdiv (fmul fone (total_convolve_rate d)) ftwo)
    with (kernel_tap (total_convolve_rate d)).
  set (w := kernel_tap (total_convolve_rate d)).
  pose proof (np_roll1_shape A S _ (convolve2d_same_shape A S cur w w Hshape))
    as Hrolled.
  assert (length (convolve2d_same cur w w) = A) as Hsm.
  { apply (convolve2d_same_shape A S cur w w Hshape). }
  destruct (np_roll1 (convolve2d_same cur w w)) as [|row0 rest] eqn:Hroll.
  { destruct Hrolled as [Hl _]. simpl in Hl. lia. }
  assert (length row0 = S) as Hrow0.
  { destruct Hrolled as [_ Hrows]. apply Forall_cons in Hrows as [Hr _]. exact Hr. }
  assert (_update cur d = (set_generator (Some (advance_by 1 g)) d, Ok (v :: rest)))
    as Hupd.
  { unfold _update, bind, gets, next_generator. rewrite Hg, Hv. fold w.
    rewrite Hroll. rewrite assign_row_same by congruence. reflexivity. }
  exists (v :: rest). split; [exact Hupd|]. split; [|split; [|split; [|split]]].
  - intros a s x Hx. apply entry2_convolve2d_same, Hx.
  - intros a Ha. rewrite <- Hroll. rewrite <- Hsm at 1.
    apply np_roll1_lookup. lia.
  - reflexivity.
  - destruct Hrolled as [Hl Hrows]. split; [exact Hl|].
    apply Forall_cons in Hrows as [_ Hrest]. constructor; assumption.
  - rewrite Hupd. split; reflexivity.
Qed.

(** C5: a returning run that began at a time that is not negative (the
    only times the methods produce). Each recorded step [j] takes
    the slice [j], applies the Step Function [applications flow_velocity]
    times in a row, that is once plus [max (flow_velocity - 1) 0] times,
    each on the result of the one before, and stores the last result as
    slice [j + 1]; nothing else is stored, so the history has
    [num_steps + 1] slices, and the source has been pulled once per
    application on top of the seeding. *)
Theorem recorded_step_applications (num_steps flow_velocity : Z) d :
  0 <= time d ->
  completes (run_simulation num_steps flow_velocity d) ->
  applications flow_velocity = (1 + Z.to_nat (Z.max (flow_velocity - 1) 0))%nat /\
  (flow_velocity <= 1 -> applications flow_velocity = 1%nat) /\
  exists h,
    state (run_simulation num_steps flow_velocity d).1 = Some h /\
    Z.of_nat (length h) = num_steps + 1 /\
    initial_annulus_generator (run_simulation num_steps flow_velocity d).1 =
      advance_by (seed_pulls d + Z.to_nat num_steps * applications flow_velocity)
        <$> initial_annulus_generator d /\
    forall j, (j < Z.to_nat num_steps)%nat ->
      exists g cur nxt,
        initial_annulus_generator d = Some g /\
        h !! j = Some cur /\
        h !! (j + 1)%nat = Some nxt /\
        (iterate (applications flow_velocity) _update cur
           (set_generator
              (Some (advance_by (seed_pulls d + j * applications flow_velocity) g))
              d)).2 = Ok nxt.
Proof.
  intros Htime (u & Hrun)%completes_inv.
  split; [reflexivity|]. split.
  { intros Hfv. rewrite applications_eq.
    destruct (flow_velocity - 1) eqn:E; try reflexivity. lia. }
  apply run_simulation_returns in Hrun
    as (zeros & target & seed & h & ones & Hn & _ & _ & _ & _ & Hshape & -> & _ & Hhist).
  exists h. cbn [state initial_annulus_generator set_state set_state_ set_time
                 set_generator].
  split; [reflexivity|]. split; [destruct Hshape as [Hl _]; lia|].
  split; [reflexivity|].
  destruct (Hhist Htime) as [_ Hsteps].
  assert (Z.to_nat num_steps = 0%nat \/ Z.to_nat (time d) = 0%nat) as [Hnone|Hzero].
  { destruct (Z.to_nat num_steps) as [|k] eqn:Hk; [left; reflexivity | right].
    destruct (Hsteps k ltac:(lia)) as (_ & _ & nxt & _ & _ & Hlast & _).
    apply lookup_lt_Some in Hlast. destruct Hshape as [Hl _]. lia. }
  - intros j Hj. lia.
  - rewrite Hzero in Hsteps. exact Hsteps.
Qed.
End StepFunction.

(** ** The observation mask *)

Section ObservationMask.
Context {F : Type} `{Scalar F}.
Implicit Types (d : DiskPropagation F) (m snap : list (list F))
  (h : list (list (list F))).

Lemma entry2_zip_with_fmul snap m a s :
  entry2 (zip_with (zip_with fmul) snap m) a s =
    x ← entry2 snap a s; y ← entry2 m a s; Some (fmul x y).
Proof.
  unfold entry2. rewrite lookup_zip_with.
  destruct (snap !! a) as [row|]; simpl; [|reflexivity].
  destruct (m !! a) as [mrow|]; simpl.
  - apply lookup_zip_with.
  - destruct (row !! s); reflexivity.
Qed.

Lemma entry2_triu_ones (A S : Z) ones a s :
  np_ones2 A S = Some ones ->
  entry2 (np_triu ones) a s =
    if decide (Z.of_nat a < A /\ Z.of_nat s < S)
    then Some (if decide (a <= s)%nat then fone else fzero)
    else None.
Proof.
  unfold np_ones2. case_decide as Hd; [|discriminate]. intros [= <-].
  unfold entry2, np_triu. rewrite list_lookup_imap.
  destruct (decide (a < Z.to_nat A)%nat) as [Ha|Ha].
  - rewrite lookup_replicate_2 by exact Ha. simpl. rewrite list_lookup_imap.
    destruct (decide (s < Z.to_nat S)%nat) as [Hs|Hs].
    + rewrite lookup_replicate_2 by exact Hs. simpl.
      destruct (decide (Z.of_nat a < A /\ Z.of_nat s < S)); [reflexivity | lia].
    + assert (replicate (Z.to_nat S) (fone : F) !! s = None) as ->
        by (apply lookup_replicate_None; lia).
      simpl.
      destruct (decide (Z.of_nat a < A /\ Z.of_nat s < S)); [lia | reflexivity].
  - assert (replicate (Z.to_nat A) (replicate (Z.to_nat S) (fone : F)) !! a = None)
      as -> by (apply lookup_replicate_None; lia).
    simpl.
    destruct (decide (Z.of_nat a < A /\ Z.of_nat s < S)); [lia | reflexivity].
Qed.

Lemma entry2_in_shape (A S : nat) snap a s x :
  shape2 A S snap -> entry2 snap a s = Some x -> (a < A)%nat /\ (s < S)%nat.
Proof.
  intros [Hl Hrows] Hx. unfold entry2 in Hx.
  destruct (snap !! a) as [row|] eqn:Hrow; [|discriminate]. simpl in Hx.
  split.
  - rewrite <- Hl. eapply lookup_lt_Some, Hrow.
  - rewrite Forall_lookup in Hrows. rewrite <- (Hrows _ _ Hrow).
    eapply lookup_lt_Some, Hx.
Qed.

(** An entry of the observed state is the history entry times the entry of
    the mask: one on and above the diagonal, zero below it. *)
Lemma entry3_mask_product (A S : Z) n ones h t a s :
  np_ones2 A S = Some ones ->
  shape3 n (Z.to_nat A) (Z.to_nat S) h ->
  entry3 (mul_broadcast h (np_triu ones)) t a s =
    (fun x => fmul x (if decide (a <= s)%nat then fone else fzero)) <$>
      entry3 h t a s.
Proof.
  intros Hones [_ Hall]. unfold entry3, mul_broadcast.
  rewrite list_lookup_fmap. destruct (h !! t) as [snap|] eqn:Hsnap; [|reflexivity].
  simpl. rewrite entry2_zip_with_fmul.
  destruct (entry2 snap a s) as [x|] eqn:Hx; [|reflexivity]. simpl.
  rewrite Forall_lookup in Hall.
  destruct (entry2_in_shape _ _ _ _ _ _ (Hall _ _ Hsnap) Hx) as [Ha Hs].
  rewrite (entry2_triu_ones A S ones a s Hones).
  destruct (decide (Z.of_nat a < A /\ Z.of_nat s < S)) as [Hin|Hout]; [|lia].
  reflexivity.
Qed.

(** After a call that returns, in any arithmetic: the observed state is the
    history multiplied entry by entry with the mask. *)
Lemma observed_state_products (num_steps flow_velocity : Z) d :
  completes (run_simulation num_steps flow_velocity d) ->
  exists h obs,
    state (run_simulation num_steps flow_velocity d).1 = Some h /\
    state_ (run_simulation num_steps flow_velocity d).1 = Some obs /\
    length obs = length h /\
    forall t a s,
      entry3 obs t a s =
        (fun x => fmul x (if decide (a <= s)%nat then fone else fzero)) <$>
          entry3 h t a s.
Proof.
  intros (u & Hrun)%completes_inv.
  apply run_simulation_returns in Hrun
    as (zeros & target & seed & h & ones & _ & _ & _ & _ & Hones & Hshape & -> & _).
  exists h, (mul_broadcast h (np_triu ones)).
  cbn [state state_ set_state set_state_].
  split; [reflexivity|]. split; [reflexivity|].
  split; [unfold mul_broadcast; apply length_fmap|].
  intros t a s. apply (entry3_mask_product _ _ _ _ _ t a s Hones Hshape).
Qed.

(** In exact arithmetic, where [x * 1 = x] and [x * 0 = 0], the observed
    state is zero below the diagonal and the history entry elsewhere. *)
Section ExactArithmetic.
Hypothesis fmul_one_r : forall x : F, fmul x fone = x.
Hypothesis fmul_zero_r : forall x : F, fmul x fzero = fzero.

Lemma observed_state_exact_mask (num_steps flow_velocity : Z) d :
  completes (run_simulation num_steps flow_velocity d) ->
  exists h obs,
    state (run_simulation num_steps flow_velocity d).1 = Some h /\
    state_ (run_simulation num_steps flow_velocity d).1 = Some obs /\
    length obs = length h /\
    (forall t a s, is_Some (entry3 obs t a s) <-> is_Some (entry3 h t a s)) /\
    (forall t a s x, entry3 h t a s = Some x -> (a > s)%nat ->
       entry3 obs t a s = Some fzero) /\
    (forall t a s x, entry3 h t a s = Some x -> (a <= s)%nat ->
       entry3 obs t a s = Some x).
Proof.
  intros (h & obs & Hh & Hobs & Hlen & Hprod)%observed_state_products.
  exists h, obs. repeat split; try assumption.
  - rewrite Hprod. intros ?%fmap_is_Some. assumption.
  - rewrite Hprod. intros ?. apply fmap_is_Some. assumption.
  - intros t a s x Hx Hgt. rewrite Hprod, Hx. simpl.
    case_decide; [lia | rewrite fmul_zero_r; reflexivity].
  - intros t a s x Hx Hle. rewrite Hprod, Hx. simpl.
    case_decide; [rewrite fmul_one_r; reflexivity | lia].
Qed.
End ExactArithmetic.
End ObservationMask.


(** ** Initialization and the seed of later runs *)

Section Initialization.
Context {F : Type} `{Scalar F}.
Implicit Types (d : DiskPropagation F) (g : Generator F)
  (m : list (list F)) (h : list (list (list F))).

Lemma initialize_Ok f d d' u :
  initialize f d = (d', Ok u) ->
  exists d1 h s0,
    run_simulation (num_anulus d) 1
      (set_generator (Some (f (num_segments d))) d) = (d1, Ok tt) /\
    state d1 = Some h /\ last h = Some s0 /\
    d' = set_time 0 (set_initial_state (Some s0) d1).
Proof.
  intros (d0 & s & [-> ->]%gets_Ok & Hi)%bind_Ok.
  apply bind_Ok in Hi as (d0 & [] & ->%modify_Ok & Hi).
  apply bind_Ok in Hi as (d0 & a & [-> ->]%gets_Ok & Hi).
  apply bind_Ok in Hi as (d1 & [] & Hrun & Hi).
  apply bind_Ok in Hi
    as (d2 & final & [-> (h & k & Hh & Hk & Hfinal)]%state_getitem_Ok & Hi).
  apply bind_Ok in Hi as (d3 & [] & ->%modify_Ok & ->%modify_Ok).
  exists d1, h, final. split; [exact Hrun|]. split; [exact Hh|].
  split; [|reflexivity].
  rewrite last_lookup. rewrite <- Hfinal. f_equal.
  unfold py_index in Hk. repeat case_decide; try discriminate; try lia.
  injection Hk as <-. lia.
Qed.

Lemma seeded_with_run (s0 : list (list F)) a s n fv :
  preserves (seeded_with s0 a s) (run_simulation n fv).
Proof.
  apply preserves_run_simulation; unfold seeded_with.
  - intros st d Hd. exact Hd.
  - intros st d Hd. exact Hd.
  - intros g d Hd. exact Hd.
  - intros d (Hi & Ha & Hs & Ht). simpl. repeat split; try assumption. lia.
Qed.

Lemma seeded_with_followed (s0 : list (list F)) a s d1 d2 :
  seeded_with s0 a s d1 -> followed_by d1 d2 -> seeded_with s0 a s d2.
Proof.
  intros Hd1 Hfollow. induction Hfollow as [|d n fv _ IH|d _ IH].
  - exact Hd1.
  - apply seeded_with_run, IH.
  - destruct IH as (Hi & Ha & Hs & Ht). unfold seeded_with. simpl.
    repeat split; try assumption. lia.
Qed.

(** A returning run of an object seeded with a snapshot of the grid's shape
    has that snapshot as slice 0. *)
Lemma seeded_run_slice0 (s0 : list (list F)) n fv d :
  seeded_with s0 (num_anulus d) (num_segments d) d ->
  shape2 (Z.to_nat (num_anulus d)) (Z.to_nat (num_segments d)) s0 ->
  completes (run_simulation n fv d) ->
  exists h, state (run_simulation n fv d).1 = Some h /\ h !! 0%nat = Some s0.
Proof.
  intros (Hi & _ & _ & Ht) Hs0 (u & Hrun)%completes_inv.
  apply run_simulation_returns in Hrun
    as (zeros & target & seed & h & ones & _ & Hz & Htarget & Hfrom & _ & _ & -> & _ & Hhist).
  destruct (Hhist Ht) as [Hseed _].
  apply np_zeros3_shape in Hz as (_ & _ & _ & _ & [_ Hall]).
  rewrite Forall_lookup in Hall. specialize (Hall _ _ Htarget).
  unfold seeded_from in Hfrom. rewrite Hi in Hfrom.
  rewrite (assign_2d_same _ _ _ _ Hall Hs0) in Hfrom. injection Hfrom as <-.
  exists h. split; [reflexivity | exact Hseed].
Qed.

(** C7: when [initialize] returns, it has run the warm-up, that is
    [run_simulation(num_anulus)] on the object holding the source that the
    factory made for [num_segments], and that run returned; the object is the
    one the warm-up left, with [initial_state] set to the last slice of the
    warm-up history and [time] set to 0. From then on, whatever calls of
    [run_simulation] and [reset] come in between, every call of
    [run_simulation] that returns has that snapshot as slice 0 of its history
    and leaves [initial_state] as it was. *)
Theorem initialize_seeds_every_run f d :
  completes (initialize f d) ->
  time (initialize f d).1 = 0 /\
  exists d1 h s0,
    run_simulation (num_anulus d) 1
      (set_generator (Some (f (num_segments d))) d) = (d1, Ok tt) /\
    state d1 = Some h /\
    (initialize f d).1 = set_time 0 (set_initial_state (Some s0) d1) /\
    state (initialize f d).1 = Some h /\
    last h = Some s0 /\
    initial_state (initialize f d).1 = Some s0 /\
    forall d2, followed_by (initialize f d).1 d2 ->
      forall num_steps flow_velocity,
        completes (run_simulation num_steps flow_velocity d2) ->
        exists h',
          state (run_simulation num_steps flow_velocity d2).1 = Some h' /\
          h' !! 0%nat = Some s0 /\
          initial_state (run_simulation num_steps flow_velocity d2).1 = Some s0.
Proof.
  intros (u & Hinit)%completes_inv.
  apply initialize_Ok in Hinit as (d1 & h & s0 & Hrun & Hh & Hlast & Hd').
  rewrite Hd'. cbn [time state initial_state set_time set_initial_state].
  split; [reflexivity|]. exists d1, h, s0.
  split; [exact Hrun|]. split; [exact Hh|]. split; [reflexivity|].
  split; [exact Hh|]. split; [exact Hlast|]. split; [reflexivity|].
  pose proof Hrun as
    (zeros & target & seed & h1 & ones & _ & _ & _ & _ & _ & Hshape & Hd1 & _)%run_simulation_returns.
  cbn [num_anulus num_segments set_generator] in Hshape.
  assert (h1 = h) as ->.
  { rewrite Hd1 in Hh. cbn [state set_state set_state_] in Hh. congruence. }
  assert (shape2 (Z.to_nat (num_anulus d)) (Z.to_nat (num_segments d)) s0) as Hs0.
  { destruct Hshape as [_ Hall]. rewrite Forall_forall in Hall.
    apply Hall. eapply last_Some_elem_of, Hlast. }
  assert (seeded_with s0 (num_anulus d) (num_segments d)
            (set_time 0 (set_initial_state (Some s0) d1))) as Hseeded.
  { rewrite Hd1. unfold seeded_with. simpl. repeat split. lia. }
  intros d2 Hfollow n fv Hdone.
  pose proof (seeded_with_followed _ _ _ _ _ Hseeded Hfollow) as Hd2.
  pose proof (seeded_with_run _ _ _ n fv _ Hd2) as (Hi' & _).
  destruct Hd2 as (Hi2 & Ha2 & Hs2 & Ht2).
  destruct (seeded_run_slice0 s0 n fv d2) as (h' & Hh' & H0).
  - unfold seeded_with. rewrite Ha2, Hs2. auto.
  - rewrite Ha2, Hs2. exact Hs0.
  - exact Hdone.
  - exists h'. auto.
Qed.
End Initialization.


(** ** The scenarios, evaluated *)

(** C1 at [DiskPropagation(1, 3)] after [initialize]: a run of two steps
    ends at time 2. *)
Lemma run_simulation_advances_time_witness :
  time (run_simulation 2 1 disk_ready).1 = time disk_ready + 2 /\
  (time disk_ready = 0 -> time (run_simulation 2 1 disk_ready).1 = 2).
Proof.
  apply (run_simulation_advances_time 2 1 disk_ready). vm_compute. exact I.
Defined.

(** C1 fails as stated: after [run_simulation(1)], a call
    [run_simulation(0)] returns and leaves [time] at 1, not at its own
    [num_steps = 0]; and a second [run_simulation(1)] does not return at all
    (it indexes the fresh two-slice history at time 2). *)
Lemma run_simulation_keeps_earlier_time :
  completes (run_simulation 1 1 disk_ready) /\
  completes (run_simulation 0 1 (run_simulation 1 1 disk_ready).1) /\
  time (run_simulation 0 1 (run_simulation 1 1 disk_ready).1).1 = 1 /\
  time (run_simulation 0 1 (run_simulation 1 1 disk_ready).1).1 <> 0 /\
  (run_simulation 1 1 (run_simulation 1 1 disk_ready).1).2 = Raise IndexError.
Proof.
  split; [vm_compute; exact I|]. split; [vm_compute; exact I|].
  split; [vm_compute; reflexivity|]. split; [|vm_compute; reflexivity].
  vm_compute. discriminate.
Qed.

(** C2 fails as stated: with rate 0 both kernel taps are 0, so the smoothing
    stage turns the seed snapshot into zeros instead of leaving it alone,
    and annulus 1 of [history[1]] is not the seed row. *)
Lemma rate0_smoothing_is_not_identity :
  exists h seed,
    state (run_simulation 1 1 disk_rate0).1 = Some h /\
    h !! 0%nat = Some seed /\
    seed !! 0%nat = Some ones_row /\
    convolve2d_same seed (kernel_tap 0%float) (kernel_tap 0%float) <> seed /\
    entry3 h 1 1 0 = Some 0%float /\
    entry3 h 1 1 0 <> entry3 h 0 0 0.
Proof.
  exists [[ones_row; ones_row; ones_row]; [ones_row; zeros_row; zeros_row]],
         [ones_row; ones_row; ones_row].
  split; [vm_compute; reflexivity|]. split; [reflexivity|].
  split; [reflexivity|]. split; [|split; [vm_compute; reflexivity|]].
  - vm_compute. discriminate.
  - vm_compute. discriminate.
Qed.

(** C2, as the code has it: in that scenario the call returns at time 1;
    the seed snapshot is the pulled vector in every row; in [history[1]]
    annulus 0 is the fresh pull [[1, 1, 1]] and every other annulus is
    zero, because the smoothing with rate 0 has zeroed the snapshot before
    the shift. *)
Theorem rate0_run_history :
  completes (run_simulation 1 1 disk_rate0) /\
  time (run_simulation 1 1 disk_rate0).1 = 1 /\
  state (run_simulation 1 1 disk_rate0).1 =
    Some [[ones_row; ones_row; ones_row]; [ones_row; zeros_row; zeros_row]] /\
  convolve2d_same [ones_row; ones_row; ones_row]
    (kernel_tap (total_convolve_rate disk_rate0))
    (kernel_tap (total_convolve_rate disk_rate0)) =
    [zeros_row; zeros_row; zeros_row].
Proof.
  split; [vm_compute; exact I|]. repeat split; vm_compute; reflexivity.
Qed.

(** C3 fails as stated: [run_simulation(1, flow_velocity=0)] returns, with
    a two-slice history allocated and filled. *)
Lemma flow_velocity_zero_is_accepted :
  (0 <= 0 \/ 1 < 0) /\
  completes (run_simulation 1 0 disk_ready) /\
  ~ raises (run_simulation 1 0 disk_ready) /\
  length <$> state (run_simulation 1 0 disk_ready).1 = Some 2%nat.
Proof.
  split; [left; lia|]. split; [vm_compute; exact I|].
  split; [vm_compute; tauto | vm_compute; reflexivity].
Qed.

(** C3 at [num_steps = -1] and [-2] and at [flow_velocity = 0]. *)
Lemma run_simulation_degenerate_parameters_witness :
  raises (run_simulation (-1) 0 disk_ready) /\
  run_simulation (-2) 0 disk_ready = (disk_ready, Raise ValueError) /\
  state (run_simulation (-1) 0 disk_ready).1 = Some [] /\
  run_simulation 1 0 disk_ready = run_simulation 1 1 disk_ready.
Proof.
  destruct (run_simulation_degenerate_parameters (-1) 0 disk_ready)
    as (Hraise & _ & Hempty & _).
  destruct (run_simulation_degenerate_parameters (-2) 0 disk_ready)
    as (_ & Hvalue & _ & _).
  destruct (run_simulation_degenerate_parameters 1 0 disk_ready)
    as (_ & _ & _ & Hsame).
  split; [apply Hraise; lia|]. split; [apply Hvalue; lia|].
  split; [|apply Hsame; lia].
  apply Hempty.
  - reflexivity.
  - vm_compute. discriminate.
  - vm_compute. discriminate.
  - vm_compute. discriminate.
Defined.

(** The mask over exact integers, where the two laws hold. *)
Example observed_state_exact_integers :
  exists h obs,
    state (run_simulation 2 1 disk_readyZ).1 = Some h /\
    state_ (run_simulation 2 1 disk_readyZ).1 = Some obs /\
    length obs = length h /\
    (forall t a s, is_Some (entry3 obs t a s) <-> is_Some (entry3 h t a s)) /\
    (forall t a s x, entry3 h t a s = Some x -> (a > s)%nat ->
       entry3 obs t a s = Some 0) /\
    (forall t a s x, entry3 h t a s = Some x -> (a <= s)%nat ->
       entry3 obs t a s = Some x).
Proof.
  apply (@observed_state_exact_mask Z exactZ Z.mul_1_r Z.mul_0_r 2 1 disk_readyZ).
  vm_compute. exact I.
Qed.

(** The mask in binary64, on the run of one step after [initialize]. *)
Example observed_state_binary64 :
  state_ (run_simulation 1 1 disk_ready).1 =
    Some [[[1%float; 1%float; 1%float];
           [0%float; 0.5%float; 0.5%float];
           [0%float; 0%float; 0.25%float]];
          [[1%float; 1%float; 1%float];
           [0%float; 0.5%float; 0.5%float];
           [0%float; 0%float; 0.25%float]]].
Proof. vm_compute. reflexivity. Qed.

(** C5 at [flow_velocity = 2], [num_steps = 1]: two applications, a history
    of two slices, the second application's result stored. *)
Lemma recorded_step_applications_witness :
  applications 2 = (1 + Z.to_nat (Z.max (2 - 1) 0))%nat /\
  (2 <= 1 -> applications 2 = 1%nat) /\
  exists h,
    state (run_simulation 1 2 disk_ready).1 = Some h /\
    Z.of_nat (length h) = 1 + 1 /\
    initial_annulus_generator (run_simulation 1 2 disk_ready).1 =
      advance_by (seed_pulls disk_ready + Z.to_nat 1 * applications 2)
        <$> initial_annulus_generator disk_ready /\
    forall j, (j < Z.to_nat 1)%nat ->
      exists g cur nxt,
        initial_annulus_generator disk_ready = Some g /\
        h !! j = Some cur /\
        h !! (j + 1)%nat = Some nxt /\
        (iterate (applications 2) _update cur
           (set_generator
              (Some (advance_by (seed_pulls disk_ready + j * applications 2) g))
              disk_ready)).2 = Ok nxt.
Proof.
  apply (recorded_step_applications 1 2 disk_ready).
  - vm_compute. discriminate.
  - vm_compute. exact I.
Defined.

(** C6 on a 3 by 3 snapshot with the constant source, at rate 0.5. *)
Lemma update_step_function_witness :
  exists nxt,
    _update sample_snapshot (disk_with ones_forever) =
      (set_generator (Some (advance_by 1 ones_forever)) (disk_with ones_forever), Ok nxt) /\
    (forall a s x, entry2 sample_snapshot a s = Some x ->
       entry2 (convolve2d_same sample_snapshot
                 (fdiv (fmul fone (total_convolve_rate (disk_with ones_forever))) ftwo)
                 (fdiv (fmul fone (total_convolve_rate (disk_with ones_forever))) ftwo)) a s =
         Some (fadd (fadd fzero (fmul x (fdiv (fmul fone (total_convolve_rate (disk_with ones_forever))) ftwo)))
                 (fmul (match s with
                        | O => fzero
                        | S s' => default fzero (entry2 sample_snapshot a s')
                        end) (fdiv (fmul fone (total_convolve_rate (disk_with ones_forever))) ftwo)))) /\
    (forall a, (a < 3)%nat ->
       np_roll1 (convolve2d_same sample_snapshot
                   (fdiv (fmul fone (total_convolve_rate (disk_with ones_forever))) ftwo)
                   (fdiv (fmul fone (total_convolve_rate (disk_with ones_forever))) ftwo)) !! ((a + 1) mod 3)%nat =
       convolve2d_same sample_snapshot
         (fdiv (fmul fone (total_convolve_rate (disk_with ones_forever))) ftwo)
         (fdiv (fmul fone (total_convolve_rate (disk_with ones_forever))) ftwo) !! a) /\
    nxt = <[0%nat := ones_row]>
            (np_roll1 (convolve2d_same sample_snapshot
                         (fdiv (fmul fone (total_convolve_rate (disk_with ones_forever))) ftwo)
                         (fdiv (fmul fone (total_convolve_rate (disk_with ones_forever))) ftwo))) /\
    shape2 3 3 nxt /\
    state (_update sample_snapshot (disk_with ones_forever)).1 = state (disk_with ones_forever) /\
    initial_annulus_generator (_update sample_snapshot (disk_with ones_forever)).1 =
      Some (advance_by 1 ones_forever).
Proof.
  apply (update_step_function sample_snapshot (disk_with ones_forever) ones_forever ones_row 3 3).
  - split; [reflexivity|]. repeat constructor.
  - lia.
  - reflexivity.
  - reflexivity.
  - reflexivity.
Defined.

(** The same invocation, evaluated in binary64: with rate 0.5 both taps are
    0.25, so row [[1, 2, 3]] is smoothed into [[0.25, 0.75, 1.25]]. *)
Example update_binary64 :
  fdiv (fmul fone (total_convolve_rate (disk_with ones_forever))) ftwo = 0.25%float /\
  (_update sample_snapshot (disk_with ones_forever)).2 =
    Ok [[1%float; 1%float; 1%float];
        [0.25%float; 0.75%float; 1.25%float];
        [1%float; 2.25%float; 2.75%float]] /\
  option_map gen_pos (initial_annulus_generator (_update sample_snapshot (disk_with ones_forever)).1) =
    Some 1%nat.
Proof. repeat split; vm_compute; reflexivity. Qed.

(** C7 at [DiskPropagation(1, 3)] with the constant source. *)
Lemma initialize_seeds_every_run_witness :
  time disk_ready = 0 /\
  exists d1 h s0,
    run_simulation (num_anulus (construct 1 3 0.5%float)) 1
      (set_generator
         (Some ((fun _ => ones_forever) (num_segments (construct 1 3 0.5%float))))
         (construct 1 3 0.5%float)) = (d1, Ok tt) /\
    state d1 = Some h /\
    disk_ready = set_time 0 (set_initial_state (Some s0) d1) /\
    state disk_ready = Some h /\
    last h = Some s0 /\
    initial_state disk_ready = Some s0 /\
    forall d2, followed_by disk_ready d2 ->
      forall num_steps flow_velocity,
        completes (run_simulation num_steps flow_velocity d2) ->
        exists h',
          state (run_simulation num_steps flow_velocity d2).1 = Some h' /\
          h' !! 0%nat = Some s0 /\
          initial_state (run_simulation num_steps flow_velocity d2).1 = Some s0.
Proof.
  apply (initialize_seeds_every_run (fun _ => ones_forever) (construct 1 3 0.5%float)).
  vm_compute. exact I.
Defined.

(** What that [initialize] leaves, evaluated in binary64: four pulls taken
    (one for the seed, one per warm-up step), a warm-up history of four
    slices, and its last slice as [initial_state]. *)
Example initialize_binary64 :
  initial_state disk_ready =
    Some [[1%float; 1%float; 1%float];
          [0.25%float; 0.5%float; 0.5%float];
          [0.0625%float; 0.1875%float; 0.25%float]] /\
  option_map gen_pos (initial_annulus_generator disk_ready) = Some 4%nat /\
  length <$> state disk_ready = Some 4%nat /\
  time disk_ready = 0.
Proof. repeat split; vm_compute; reflexivity. Qed.

(** C8 at [num_steps = 0]. *)
Lemma run_simulation_history_shape_witness :
  exists h ones,
    state (run_simulation 0 1 disk_ready).1 = Some h /\
    Z.of_nat (length h) = 0 + 1 /\
    (forall t snap, h !! t = Some snap ->
       Z.of_nat (length snap) = num_anulus disk_ready /\
       forall a row, snap !! a = Some row ->
         Z.of_nat (length row) = num_segments disk_ready) /\
    np_ones2 (num_anulus disk_ready) (num_segments disk_ready) = Some ones /\
    state_ (run_simulation 0 1 disk_ready).1 =
      Some (mul_broadcast h (np_triu ones)) /\
    (0 = 0 ->
       exists seed, h = [seed] /\
         seeded_from disk_ready
           (replicate (Z.to_nat (num_anulus disk_ready))
              (replicate (Z.to_nat (num_segments disk_ready)) fzero)) seed).
Proof.
  apply (run_simulation_history_shape 0 1 disk_ready).
  - lia.
  - vm_compute. exact I.
Defined.

(** C10 at the unseeded [DiskPropagation(1, 3, 0)]. *)
Lemma seed_broadcasts_one_pull_witness :
  exists h,
    state (run_simulation 1 1 disk_rate0).1 = Some h /\
    h !! 0%nat = Some (replicate (Z.to_nat (num_anulus disk_rate0)) ones_row) /\
    (forall a s, Z.of_nat a < num_anulus disk_rate0 ->
       entry3 h 0 a s = ones_row !! s) /\
    seed_pulls disk_rate0 = 1%nat /\
    initial_annulus_generator (run_simulation 1 1 disk_rate0).1 =
      Some (advance_by (1 + Z.to_nat 1 * applications 1) ones_forever).
Proof.
  apply (seed_broadcasts_one_pull 1 1 disk_rate0 ones_forever ones_row).
  - reflexivity.
  - reflexivity.
  - reflexivity.
  - reflexivity.
  - vm_compute. discriminate.
  - vm_compute. exact I.
Defined.


(** ** Runs that are fed: forward reasoning *)

Section FedRuns.
Context {F : Type} `{Scalar F}.
Implicit Types (d : DiskPropagation F) (g : Generator F)
  (cur nxt mid m : list (list F)) (h : list (list (list F))) (v : list F).

Local Arguments applications : simpl never.

Lemma bind_assoc {A B C} (c : M A) (f : A -> M B) (k : B -> M C) d :
  bind (bind c f) k d = bind c (fun a => bind (f a) k) d.
Proof. unfold bind. destruct (c d) as [d1 [a|e]]; reflexivity. Qed.

Lemma state_getitem_eq i d h k cur :
  state d = Some h -> py_index (length h) i = Some k -> h !! k = Some cur ->
  state_getitem i d = (d, Ok cur).
Proof.
  intros Hh Hk Hc. unfold state_getitem, the_state, bind, gets.
  rewrite Hh. cbn [orRaise ret]. rewrite Hk. cbn [orRaise ret]. rewrite Hc.
  reflexivity.
Qed.

Lemma state_setitem_eq i src d h k target new :
  state d = Some h -> py_index (length h) i = Some k -> h !! k = Some target ->
  assign_2d target src = Some new ->
  state_setitem i src d = (set_state (Some (<[k := new]> h)) d, Ok tt).
Proof.
  intros Hh Hk Ht Hn. unfold state_setitem, the_state, bind, gets.
  rewrite Hh. cbn [orRaise ret]. rewrite Hk. cbn [orRaise ret]. rewrite Ht.
  cbn [orRaise ret]. rewrite Hn. reflexivity.
Qed.

Lemma pulled_advance_by j g i : pulled (advance_by j g) i = pulled g (j + i).
Proof.
  unfold pulled, advance_by. cbn [gen_values gen_pos]. do 2 f_equal. lia.
Qed.

Lemma fed_advance_by j k s g : fed g (j + k) s -> fed (advance_by j g) k s.
Proof.
  intros Hfed i Hi. destruct (Hfed (j + i)%nat ltac:(lia)) as (v & Hv & Hl).
  exists v. split; [|exact Hl]. unfold advance_by. cbn [gen_values gen_pos].
  rewrite <- Hv. f_equal. lia.
Qed.

Lemma fed_weaken j k s g : (j <= k)%nat -> fed g k s -> fed g j s.
Proof. intros Hjk Hfed i Hi. apply Hfed. lia. Qed.

Lemma fed_pulled g k s i :
  fed g k s -> (i < k)%nat ->
  gen_values g (gen_pos g + i)%nat = Some (pulled g i) /\ length (pulled g i) = s.
Proof.
  intros Hfed Hi. destruct (Hfed i Hi) as (v & Hv & Hl).
  unfold pulled. rewrite Hv. auto.
Qed.

Lemma iter_fmap_0 {X} (f : X -> X) (o : option X) : Nat.iter 0 f <$> o = o.
Proof. destruct o; reflexivity. Qed.

(** Stepping [j] times and then [k] times is stepping [j + k] times. *)
Lemma shifted_row_compose rate g j k (A : nat) cur mid nxt :
  length cur = A -> length mid = A ->
  (forall a, (a < A)%nat -> mid !! a = shifted_row rate g j cur a) ->
  (forall a, (a < A)%nat -> nxt !! a = shifted_row rate (advance_by j g) k mid a) ->
  forall a, (a < A)%nat -> nxt !! a = shifted_row rate g (j + k) cur a.
Proof.
  intros Hcur Hmid Hm Hn a Ha. rewrite (Hn a Ha). unfold shifted_row.
  destruct (decide (a < k)%nat) as [Hak|Hak].
  - destruct (decide (a < j + k)%nat); [|lia].
    rewrite pulled_advance_by. do 3 f_equal. lia.
  - rewrite (Hm (a - k)%nat ltac:(lia)). unfold shifted_row.
    destruct (decide (a - k < j)%nat) as [Hj|Hj].
    + destruct (decide (a < j + k)%nat); [|lia]. cbn [fmap option_fmap option_map].
      f_equal. rewrite <- Nat.iter_add.
      replace (k + (a - k))%nat with a by lia. do 2 f_equal. lia.
    + destruct (decide (a < j + k)%nat); [lia|].
      replace (a - (j + k))%nat with (a - k - j)%nat by lia.
      destruct (cur !! (a - k - j)%nat) as [row|]; [|reflexivity].
      cbn [fmap option_fmap option_map]. f_equal.
      rewrite <- Nat.iter_add. f_equal. lia.
Qed.

(** One application, forward: it returns when the next pull has the row
    length, and its result is the input stepped once. *)
Lemma update_fed (A W : nat) cur d g :
  shape2 A W cur -> (0 < A)%nat ->
  initial_annulus_generator d = Some g -> fed g 1 W ->
  exists nxt,
    _update cur d = (set_generator (Some (advance_by 1 g)) d, Ok nxt) /\
    shape2 A W nxt /\
    forall a, (a < A)%nat ->
      nxt !! a = shifted_row (total_convolve_rate d) g 1 cur a.
Proof.
  intros Hshape HA Hg Hfed.
  destruct (fed_pulled g 1 W 0 Hfed ltac:(lia)) as [Hv Hlen].
  rewrite Nat.add_0_r in Hv.
  set (w := kernel_tap (total_convolve_rate d)).
  pose proof (np_roll1_shape A W _ (convolve2d_same_shape A W cur w w Hshape))
    as Hrolled.
  assert (length (convolve2d_same cur w w) = A) as Hsm
    by apply (convolve2d_same_shape A W cur w w Hshape).
  destruct (np_roll1 (convolve2d_same cur w w)) as [|row0 rest] eqn:Hroll.
  { destruct Hrolled as [Hl _]. simpl in Hl. lia. }
  destruct Hrolled as [Hl Hrows]. apply Forall_cons in Hrows as [Hrow0 Hrest].
  exists (pulled g 0 :: rest). split; [|split].
  - unfold _update, bind, gets, next_generator. rewrite Hg, Hv. fold w.
    rewrite Hroll. rewrite assign_row_same by congruence. reflexivity.
  - split; [exact Hl|]. constructor; assumption.
  - intros [|a] Ha; unfold shifted_row.
    + destruct (decide (0 < 1)%nat); [|lia]. reflexivity.
    + destruct (decide (S a < 1)%nat); [lia|].
      change (pulled g 0 :: rest) with ([pulled g 0] ++ rest).
      replace ((pulled g 0 :: rest) !! S a) with ((row0 :: rest) !! S a)
        by reflexivity.
      rewrite <- Hroll, np_roll1_succ by lia.
      unfold convolve2d_same. rewrite list_lookup_fmap.
      replace (S a - 1)%nat with a by lia. reflexivity.
Qed.

(** [k] applications in a row, forward. *)
Lemma iterate_update_fed (A W : nat) k : forall cur d g,
  shape2 A W cur -> (0 < A)%nat ->
  initial_annulus_generator d = Some g -> fed g k W ->
  exists nxt,
    iterate k _update cur d = (set_generator (Some (advance_by k g)) d, Ok nxt) /\
    shape2 A W nxt /\
    forall a, (a < A)%nat ->
      nxt !! a = shifted_row (total_convolve_rate d) g k cur a.
Proof.
  induction k as [|k IH]; intros cur d g Hshape HA Hg Hfed.
  - exists cur. split; [|split; [exact Hshape|]].
    + cbn [iterate]. unfold ret. rewrite advance_by_0, <- Hg, set_generator_id.
      reflexivity.
    + intros a Ha. unfold shifted_row. destruct (decide (a < 0)%nat); [lia|].
      rewrite Nat.sub_0_r, iter_fmap_0. reflexivity.
  - destruct (update_fed A W cur d g Hshape HA Hg (fed_weaken 1 (S k) W g ltac:(lia) Hfed))
      as (mid & Hupd & Hmid & Hrows1).
    destruct (IH mid (set_generator (Some (advance_by 1 g)) d) (advance_by 1 g)
                Hmid HA eq_refl (fed_advance_by 1 k W g Hfed))
      as (nxt & Hit & Hnxt & Hrows).
    exists nxt. split; [|split; [exact Hnxt|]].
    + cbn [iterate]. rewrite (bind_eq_Ok _ _ _ _ _ Hupd), Hit.
      rewrite advance_by_add. f_equal.
      apply disk_ext; cbn [r_in r_out num_anulus num_segments total_convolve_rate
        time initial_state state state_ initial_annulus_generator set_generator];
        try reflexivity.
      do 2 f_equal. lia.
    + cbn [total_convolve_rate set_generator] in Hrows.
      change (S k) with (1 + k)%nat.
      eapply shifted_row_compose; [apply Hshape | apply Hmid | exact Hrows1 | exact Hrows].
Qed.
(** One recorded step, forward. *)
Lemma record_step_fed fv (n A W : nat) d h g :
  state d = Some h -> shape3 n A W h -> (0 < A)%nat ->
  0 <= time d -> (Z.to_nat (time d) + 1 < n)%nat ->
  initial_annulus_generator d = Some g -> fed g (applications fv) W ->
  exists nxt,
    shape2 A W nxt /\
    record_step fv d =
      (set_state (Some (<[S (Z.to_nat (time d)) := nxt]> h))
         (set_time (time d + 1)
            (set_generator (Some (advance_by (applications fv) g)) d)), Ok tt).
Proof.
  intros Hh [Hlen Hall] HA Htime Hroom Hg Hfed.
  destruct (lookup_lt_is_Some_2 h (Z.to_nat (time d)) ltac:(lia)) as [cur Hcur].
  destruct (lookup_lt_is_Some_2 h (S (Z.to_nat (time d))) ltac:(lia))
    as [target Htarget].
  rewrite Forall_lookup in Hall.
  destruct (iterate_update_fed A W (applications fv) cur d g
              (Hall _ _ Hcur) HA Hg Hfed) as (nxt & Hit & Hnxt & _).
  exists nxt. split; [exact Hnxt|].
  rewrite applications_eq in Hit at 1. cbn [iterate] in Hit.
  pose proof Hit as (d1 & mid & Hu & Hit2)%bind_Ok.
  unfold record_step.
  rewrite (bind_eq_Ok _ _ d d (time d)) by reflexivity.
  rewrite (bind_eq_Ok _ _ d d cur).
  2:{ eapply state_getitem_eq; [exact Hh | | exact Hcur].
      rewrite py_index_nonneg by lia. case_decide; [reflexivity | lia]. }
  rewrite (bind_eq_Ok _ _ _ _ _ Hu), (bind_eq_Ok _ _ _ _ _ Hit2).
  match goal with
  | |- bind (modify ?f) _ ?x = _ => rewrite (bind_eq_Ok _ _ x (f x) tt) by reflexivity
  end.
  match goal with
  | |- bind (gets time) _ ?x = _ => rewrite (bind_eq_Ok _ _ x x (time x)) by reflexivity
  end.
  cbn [time set_time set_generator].
  erewrite state_setitem_eq; [reflexivity | exact Hh | | exact Htarget |].
  - rewrite py_index_nonneg by lia. case_decide; [f_equal; lia | lia].
  - apply (assign_2d_same A W); [eapply Hall, Htarget | exact Hnxt].
Qed.

(** [k] recorded steps, forward: they all return when the history has room
    for them and the source feeds them. *)
Lemma loop_fed fv (n A W : nat) k : forall d h g,
  state d = Some h -> shape3 n A W h -> (0 < A)%nat -> 0 <= time d ->
  (Z.to_nat (time d) + k < n)%nat ->
  initial_annulus_generator d = Some g -> fed g (k * applications fv) W ->
  completes (for_range k (record_step fv) d).
Proof.
  induction k as [|k IH]; intros d h g Hh Hshape HA Htime Hroom Hg Hfed.
  - exact I.
  - destruct (record_step_fed fv n A W d h g Hh Hshape HA Htime ltac:(lia) Hg)
      as (nxt & Hnxt & Hstep).
    { eapply fed_weaken; [|exact Hfed]. lia. }
    cbn [for_range]. rewrite (bind_eq_Ok _ _ _ _ _ Hstep).
    eapply IH with (g := advance_by (applications fv) g).
    + reflexivity.
    + destruct Hshape as [Hlen Hall]. split; [rewrite length_insert; exact Hlen|].
      apply Forall_insert; assumption.
    + exact HA.
    + cbn [time set_state set_time]. lia.
    + cbn [time set_state set_time]. lia.
    + reflexivity.
    + apply fed_advance_by. replace (applications fv + k * applications fv)%nat
        with (S k * applications fv)%nat by lia. exact Hfed.
Qed.

(** The seeding, forward. *)
Lemma seed_state_fed (A W : nat) d h target g :
  state d = Some h -> h !! 0%nat = Some target -> shape2 A W target ->
  A = Z.to_nat (num_anulus d) -> W = Z.to_nat (num_segments d) ->
  initial_annulus_generator d = Some g -> fed g (seed_pulls d) W ->
  seed_fits d ->
  seed_state d =
    (set_state (Some (<[0%nat := seed_of d g]> h))
       (set_generator (Some (advance_by (seed_pulls d) g)) d), Ok tt).
Proof.
  intros Hh Ht Htarget HA HW Hg Hfed Hfits.
  assert (py_index (length h) 0 = Some 0%nat) as Hidx.
  { apply lookup_lt_Some in Ht. rewrite py_index_nonneg by lia.
    case_decide; [reflexivity | lia]. }
  unfold seed_state, seed_of, seed_pulls, seed_fits in *.
  rewrite (bind_eq_Ok _ _ d d (initial_state d)) by reflexivity.
  destruct (initial_state d) as [s0|].
  - erewrite state_setitem_eq; [| exact Hh | exact Hidx | exact Ht |].
    + rewrite advance_by_0, <- Hg, set_generator_id. reflexivity.
    + subst A W. apply (assign_2d_same _ _ _ _ Htarget Hfits).
  - destruct (fed_pulled g 1 W 0 Hfed ltac:(lia)) as [Hv Hlen].
    rewrite Nat.add_0_r in Hv.
    assert (next_generator d =
              (set_generator (Some (advance_by 1 g)) d, Ok (pulled g 0))) as Hnext.
    { unfold next_generator. rewrite Hg, Hv. reflexivity. }
    rewrite (bind_eq_Ok _ _ _ _ _ Hnext).
    erewrite state_setitem_eq; [reflexivity | exact Hh | exact Hidx | exact Ht |].
    rewrite <- HA. apply (assign_2d_vector A W); assumption.
Qed.

Lemma seed_of_shape d g :
  fed g (seed_pulls d) (Z.to_nat (num_segments d)) -> seed_fits d ->
  shape2 (Z.to_nat (num_anulus d)) (Z.to_nat (num_segments d)) (seed_of d g).
Proof.
  unfold seed_pulls, seed_fits, seed_of. destruct (initial_state d) as [s0|].
  - intros _ Hfits. exact Hfits.
  - intros Hfed _. split; [apply length_replicate|]. apply Forall_replicate.
    apply (fed_pulled g 1 _ 0 Hfed). lia.
Qed.

(** A whole run, forward: it returns when it begins at time 0 on a grid
    with at least one annulus and one segment, the stored seed (if any) has
    the shape of the grid, and the source yields a vector of [num_segments]
    entries for the seeding pull and for every Step Function application. *)
Lemma run_simulation_fed n fv d g :
  0 <= n -> is_Some (np_zeros3 (F := F) (n + 1) (num_anulus d) (num_segments d)) ->
  1 <= num_anulus d -> 1 <= num_segments d -> time d = 0 ->
  initial_annulus_generator d = Some g ->
  fed g (seed_pulls d + Z.to_nat n * applications fv) (Z.to_nat (num_segments d)) ->
  seed_fits d ->
  completes (run_simulation n fv d).
Proof.
  intros Hn Halloc HA HW Htime Hg Hfed Hfits.
  set (zeros := replicate (Z.to_nat (n + 1))
                  (replicate (Z.to_nat (num_anulus d))
                     (replicate (Z.to_nat (num_segments d)) (fzero : F)))).
  assert (np_zeros3 (n + 1) (num_anulus d) (num_segments d) = Some zeros) as Hz.
  { destruct Halloc as [z Hz]. pose proof (np_zeros3_shape _ _ _ _ Hz) as (_ & _ & _ & -> & _).
    exact Hz. }
  pose proof (np_zeros3_shape _ _ _ _ Hz) as (_ & _ & _ & _ & Hshape).
  assert (zeros !! 0%nat =
            Some (replicate (Z.to_nat (num_anulus d))
                    (replicate (Z.to_nat (num_segments d)) (fzero : F)))) as Ht.
  { apply lookup_replicate_2. lia. }
  assert (shape2 (Z.to_nat (num_anulus d)) (Z.to_nat (num_segments d))
            (replicate (Z.to_nat (num_anulus d))
               (replicate (Z.to_nat (num_segments d)) (fzero : F)))) as Htarget.
  { destruct Hshape as [_ Hall]. rewrite Forall_lookup in Hall. eapply Hall, Ht. }
  assert (shape2 (Z.to_nat (num_anulus d)) (Z.to_nat (num_segments d))
            (seed_of (set_state (Some zeros) d) g)) as Hseed.
  { apply (seed_of_shape (set_state (Some zeros) d) g); [|exact Hfits].
    eapply fed_weaken; [|exact Hfed]. unfold seed_pulls.
    cbn [initial_state set_state]. lia. }
  unfold run_simulation.
  rewrite (bind_eq_Ok _ _ d d (num_anulus d)) by reflexivity.
  rewrite (bind_eq_Ok _ _ d d (num_segments d)) by reflexivity.
  rewrite (bind_eq_Ok _ _ d d zeros) by (rewrite Hz; reflexivity).
  rewrite (bind_eq_Ok _ _ d (set_state (Some zeros) d) tt) by reflexivity.
  erewrite (bind_eq_Ok seed_state).
  2:{ eapply (seed_state_fed _ _ (set_state (Some zeros) d) zeros _ g);
        [reflexivity | exact Ht | exact Htarget | reflexivity | reflexivity
        | exact Hg | | exact Hfits].
      eapply fed_weaken; [|exact Hfed]. unfold seed_pulls. cbn [initial_state set_state].
      lia. }
  match goal with
  | |- completes (bind (for_range ?k ?body) _ ?x) =>
      assert (completes (for_range k body x)) as Hloop
  end.
  { eapply (loop_fed fv (Z.to_nat (n + 1)) (Z.to_nat (num_anulus d))
              (Z.to_nat (num_segments d)))
      with (g := advance_by (seed_pulls d) g).
    - reflexivity.
    - destruct Hshape as [Hlen Hall]. split; [rewrite length_insert; exact Hlen|].
      apply Forall_insert; [exact Hall | exact Hseed].
    - lia.
    - cbn [time set_state set_generator]. lia.
    - cbn [time set_state set_generator]. rewrite Htime. lia.
    - reflexivity.
    - apply fed_advance_by, Hfed. }
  apply completes_inv in Hloop as ([] & Hloop).
  rewrite (bind_eq_Ok _ _ _ _ _ Hloop).
  pose proof Hloop as Hattr.
  eapply (loop_attributes fv (Z.to_nat (n + 1)) (Z.to_nat (num_anulus d))
            (Z.to_nat (num_segments d))) in Hattr as (h' & _ & Hd2).
  2:{ reflexivity. }
  2:{ destruct Hshape as [Hlen Hall]. split; [rewrite length_insert; exact Hlen|].
      apply Forall_insert; [exact Hall | exact Hseed]. }
  rewrite Hd2.
  destruct (np_ones2_of_zeros3 _ _ _ _ Hz ltac:(lia)) as [ones Hones].
  unfold _extract_state, the_state, bind, gets.
  cbn [num_anulus num_segments state set_state set_time set_generator].
  rewrite Hones. exact I.
Qed.
Lemma applications_1 : applications 1 = 1%nat.
Proof. reflexivity. Qed.

(** The seed that a fed run builds is [seed_of]. *)
Lemma seeded_from_fed d g target seed :
  shape2 (Z.to_nat (num_anulus d)) (Z.to_nat (num_segments d)) target ->
  initial_annulus_generator d = Some g ->
  fed g (seed_pulls d) (Z.to_nat (num_segments d)) -> seed_fits d ->
  seeded_from d target seed -> seed = seed_of d g.
Proof.
  unfold seeded_from, seed_pulls, seed_fits, seed_of.
  intros Htarget Hg Hfed Hfits Hfrom. destruct (initial_state d) as [s0|].
  - rewrite (assign_2d_same _ _ _ _ Htarget Hfits) in Hfrom. congruence.
  - destruct Hfrom as (g' & v & Hg' & Hv & Hassign).
    assert (g' = g) as -> by congruence.
    destruct (fed_pulled g 1 _ 0 Hfed ltac:(lia)) as [Hp Hlen].
    rewrite Nat.add_0_r in Hp. assert (v = pulled g 0) as -> by congruence.
    rewrite (assign_2d_vector _ _ _ _ Htarget Hlen) in Hassign. congruence.
Qed.

(** What a fed run leaves: every slice of the history is the seed snapshot
    stepped [t * applications fv] times. *)
Lemma run_simulation_rows n fv d g :
  0 <= n -> is_Some (np_zeros3 (F := F) (n + 1) (num_anulus d) (num_segments d)) ->
  1 <= num_anulus d -> 1 <= num_segments d -> time d = 0 ->
  initial_annulus_generator d = Some g ->
  fed g (seed_pulls d + Z.to_nat n * applications fv) (Z.to_nat (num_segments d)) ->
  seed_fits d ->
  exists h ones,
    run_simulation n fv d =
      (set_state_ (Some (mul_broadcast h (np_triu ones)))
         (set_state (Some h)
            (set_time n
               (set_generator
                  (Some (advance_by (seed_pulls d + Z.to_nat n * applications fv) g))
                  d))), Ok tt) /\
    length h = S (Z.to_nat n) /\
    forall t, (t <= Z.to_nat n)%nat ->
      exists snap,
        h !! t = Some snap /\
        shape2 (Z.to_nat (num_anulus d)) (Z.to_nat (num_segments d)) snap /\
        forall a, (a < Z.to_nat (num_anulus d))%nat ->
          snap !! a =
            shifted_row (total_convolve_rate d) (advance_by (seed_pulls d) g)
              (t * applications fv) (seed_of d g) a.
Proof.
  intros Hn Halloc HA HW Htime Hg Hfed Hfits.
  pose proof (run_simulation_fed n fv d g Hn Halloc HA HW Htime Hg Hfed Hfits)
    as ([] & Hrun)%completes_inv.
  pose proof Hrun as
    (zeros & target & seed & h & ones & _ & Hz & Ht & Hfrom & _ & Hshape & Hd' & _ & Hhist)%run_simulation_returns.
  destruct (Hhist ltac:(lia)) as [Hseed Hsteps]. clear Hhist.
  rewrite Htime in Hsteps. change (Z.to_nat 0) with 0%nat in Hsteps.
  cbn [Nat.add] in Hsteps.
  apply np_zeros3_shape in Hz as (_ & _ & _ & -> & [_ Hall]).
  rewrite Forall_lookup in Hall. specialize (Hall _ _ Ht).
  assert (fed g (seed_pulls d) (Z.to_nat (num_segments d))) as Hfed0
    by (eapply fed_weaken; [|exact Hfed]; lia).
  pose proof (seeded_from_fed d g target seed Hall Hg Hfed0 Hfits Hfrom) as ->.
  exists h, ones. split; [|split].
  - rewrite Hrun. f_equal. rewrite Hd', Hg, Htime.
    cbn [fmap option_fmap option_map]. reflexivity.
  - destruct Hshape as [Hlen _]. lia.
  - induction t as [|t IH]; intros Htn.
    + exists (seed_of d g). split; [exact Hseed|].
      split; [apply seed_of_shape; assumption|].
      intros a Ha. unfold shifted_row. cbn [Nat.mul].
      destruct (decide (a < 0)%nat); [lia|].
      rewrite Nat.sub_0_r, iter_fmap_0. reflexivity.
    + destruct (IH ltac:(lia)) as (cur & Hcur & Hcshape & Hrows).
      destruct (Hsteps t ltac:(lia)) as (g0 & cur' & nxt & Hg0 & Hcur' & Hnxt & Hit).
      assert (g0 = g) as -> by congruence.
      assert (cur' = cur) as -> by congruence.
      replace (t + 1)%nat with (S t) in Hnxt by lia.
      assert (advance_by (seed_pulls d + t * applications fv) g =
              advance_by (t * applications fv) (advance_by (seed_pulls d) g)) as Hgq.
      { rewrite advance_by_add. f_equal. lia. }
      rewrite Hgq in Hit.
      destruct (iterate_update_fed (Z.to_nat (num_anulus d)) (Z.to_nat (num_segments d))
                  (applications fv) cur
                  (set_generator
                     (Some (advance_by (t * applications fv) (advance_by (seed_pulls d) g))) d)
                  (advance_by (t * applications fv) (advance_by (seed_pulls d) g))
                  Hcshape ltac:(lia) eq_refl)
        as (nxt' & Hit' & Hnshape & Hnrows).
      { rewrite advance_by_add. apply fed_advance_by.
        eapply fed_weaken; [|exact Hfed]. nia. }
      rewrite Hit' in Hit. cbn [snd] in Hit. injection Hit as ->.
      exists nxt. split; [exact Hnxt|]. split; [exact Hnshape|].
      cbn [total_convolve_rate set_generator] in Hnrows.
      replace (S t * applications fv)%nat
        with (t * applications fv + applications fv)%nat by lia.
      eapply shifted_row_compose;
        [apply seed_of_shape; assumption | apply Hcshape | exact Hrows | exact Hnrows].
Qed.

(** X1: a run returns whenever numpy accepts the shape of its history, it
    begins at time 0 on a grid with at least one annulus and one segment,
    the stored seed (if any) has the shape of the grid, and the source
    yields vectors of [num_segments] entries for the seeding pull and for
    every Step Function application. It then ends at time [num_steps], with
    [num_steps + 1] slices, and has taken exactly those pulls from the
    source. *)
Theorem run_simulation_returns_when_fed (num_steps flow_velocity : Z) d g :
  0 <= num_steps ->
  is_Some (np_zeros3 (F := F) (num_steps + 1) (num_anulus d) (num_segments d)) ->
  1 <= num_anulus d -> 1 <= num_segments d -> time d = 0 ->
  initial_annulus_generator d = Some g ->
  fed g (seed_pulls d + Z.to_nat num_steps * applications flow_velocity)
    (Z.to_nat (num_segments d)) ->
  seed_fits d ->
  completes (run_simulation num_steps flow_velocity d) /\
  time (run_simulation num_steps flow_velocity d).1 = num_steps /\
  length <$> state (run_simulation num_steps flow_velocity d).1 =
    Some (S (Z.to_nat num_steps)) /\
  initial_annulus_generator (run_simulation num_steps flow_velocity d).1 =
    Some (advance_by
            (seed_pulls d + Z.to_nat num_steps * applications flow_velocity) g).
Proof.
  intros Hn Halloc HA HW Htime Hg Hfed Hfits.
  destruct (run_simulation_rows num_steps flow_velocity d g Hn Halloc HA HW Htime Hg
              Hfed Hfits)
    as (h & ones & Hrun & Hlen & _).
  rewrite Hrun. unfold completes.
  cbn [fst snd time state initial_annulus_generator set_state_ set_state set_time
       set_generator fmap option_fmap option_map].
  rewrite Hlen. auto.
Qed.

(** X2: the history of such a run in closed form. Slice [t] is the seed
    snapshot stepped [t * applications flow_velocity] times: annulus [a] is
    the pull taken [a] applications before, smoothed [a] times, when that
    many applications have happened, and otherwise the seed row that started
    that many annuli further out, smoothed once per application. *)
Theorem run_simulation_history_closed_form (num_steps flow_velocity : Z) d g :
  0 <= num_steps ->
  is_Some (np_zeros3 (F := F) (num_steps + 1) (num_anulus d) (num_segments d)) ->
  1 <= num_anulus d -> 1 <= num_segments d -> time d = 0 ->
  initial_annulus_generator d = Some g ->
  fed g (seed_pulls d + Z.to_nat num_steps * applications flow_velocity)
    (Z.to_nat (num_segments d)) ->
  seed_fits d ->
  exists h,
    state (run_simulation num_steps flow_velocity d).1 = Some h /\
    forall t a, (t <= Z.to_nat num_steps)%nat -> (a < Z.to_nat (num_anulus d))%nat ->
      h !! t ≫= (.!! a) =
        shifted_row (total_convolve_rate d) (advance_by (seed_pulls d) g)
          (t * applications flow_velocity) (seed_of d g) a.
Proof.
  intros Hn Halloc HA HW Htime Hg Hfed Hfits.
  destruct (run_simulation_rows num_steps flow_velocity d g Hn Halloc HA HW Htime Hg
              Hfed Hfits)
    as (h & ones & Hrun & _ & Hrows).
  exists h. rewrite Hrun. split; [reflexivity|].
  intros t a Ht Ha. destruct (Hrows t Ht) as (snap & Hsnap & _ & Hsnaprows).
  rewrite Hsnap. cbn [mbind option_bind]. apply Hsnaprows, Ha.
Qed.

(** X3: [initialize] returns under the same conditions (numpy accepting the
    shape of the warm-up history, of [num_anulus + 1] slices), with the
    source that the factory makes feeding the seeding pull and [num_anulus]
    applications. Every annulus of the stored [initial_state] then holds a
    vector pulled from that source, annulus [a] the one pulled [a]
    applications before the last, smoothed [a] times; nothing of an earlier
    seed is left in it. *)
Theorem initialize_fills_every_annulus f d :
  is_Some (np_zeros3 (F := F) (num_anulus d + 1) (num_anulus d) (num_segments d)) ->
  1 <= num_anulus d -> 1 <= num_segments d -> time d = 0 -> seed_fits d ->
  fed (f (num_segments d)) (seed_pulls d + Z.to_nat (num_anulus d))
    (Z.to_nat (num_segments d)) ->
  completes (initialize f d) /\
  time (initialize f d).1 = 0 /\
  initial_annulus_generator (initialize f d).1 =
    Some (advance_by (seed_pulls d + Z.to_nat (num_anulus d)) (f (num_segments d))) /\
  exists s0,
    initial_state (initialize f d).1 = Some s0 /\
    forall a, (a < Z.to_nat (num_anulus d))%nat ->
      s0 !! a =
        Some (Nat.iter a (smooth (total_convolve_rate d))
                (pulled (f (num_segments d))
                   (seed_pulls d + (Z.to_nat (num_anulus d) - 1 - a)))).
Proof.
  intros Halloc HA HW Htime Hfits Hfed.
  set (g := f (num_segments d)) in *.
  destruct (run_simulation_rows (num_anulus d) 1 (set_generator (Some g) d) g)
    as (h & ones & Hrun & Hlen & Hrows); try assumption; try reflexivity; try lia.
  { rewrite applications_1, Nat.mul_1_r. exact Hfed. }
  cbn [num_anulus num_segments total_convolve_rate set_generator] in Hrun, Hrows.
  rewrite applications_1, Nat.mul_1_r in Hrun.
  destruct (Hrows (Z.to_nat (num_anulus d)) ltac:(lia)) as (s0 & Hs0 & _ & Hs0rows).
  assert (initialize f d =
            (set_time 0
               (set_initial_state (Some s0)
                  (set_state_ (Some (mul_broadcast h (np_triu ones)))
                     (set_state (Some h)
                        (set_time (num_anulus d)
                           (set_generator
                              (Some (advance_by
                                       (seed_pulls (set_generator (Some g) d) +
                                        Z.to_nat (num_anulus d)) g))
                              (set_generator (Some g) d)))))), Ok tt)) as Hinit.
  { unfold initialize.
    rewrite (bind_eq_Ok _ _ d d (num_segments d)) by reflexivity.
    rewrite (bind_eq_Ok _ _ d (set_generator (Some g) d) tt) by reflexivity.
    rewrite (bind_eq_Ok _ _ _ (set_generator (Some g) d) (num_anulus d))
      by reflexivity.
    rewrite (bind_eq_Ok _ _ _ _ _ Hrun).
    erewrite (bind_eq_Ok state_last).
    2:{ unfold state_last. eapply state_getitem_eq; [reflexivity | | exact Hs0].
        rewrite Hlen. unfold py_index.
        destruct (decide (0 <= -1 < Z.of_nat (S (Z.to_nat (num_anulus d)))));
          [lia|].
        destruct (decide (- Z.of_nat (S (Z.to_nat (num_anulus d))) <= -1 < 0));
          [f_equal; lia | lia]. }
    reflexivity. }
  rewrite Hinit. unfold completes.
  cbn [fst snd time initial_state initial_annulus_generator set_state_ set_state
       set_time set_generator set_initial_state].
  split; [exact I|]. split; [reflexivity|]. split; [reflexivity|].
  exists s0. split; [reflexivity|].
  intros a Ha. rewrite (Hs0rows a Ha). unfold shifted_row.
  rewrite applications_1, Nat.mul_1_r.
  destruct (decide (a < Z.to_nat (num_anulus d))%nat); [|lia].
  rewrite pulled_advance_by. reflexivity.
Qed.
End FedRuns.


(** ** Runs that the source fails *)

Section FailingRuns.
Context {F : Type} `{Scalar F}.
Implicit Types (d : DiskPropagation F) (g : Generator F)
  (cur nxt mid m : list (list F)) (h : list (list (list F))) (v : list F).

Local Arguments applications : simpl never.

Lemma assign_row_bad (target v : list F) :
  length v <> length target -> length v <> 1%nat -> assign_row target v = None.
Proof.
  intros Hl H1. unfold assign_row. case_decide; [contradiction|].
  destruct v as [|x [|y v]]; try reflexivity. simpl in H1. lia.
Qed.

Lemma assign_2d_vector_bad (A W : nat) (target : list (list F)) v :
  shape2 A W target -> (0 < A)%nat -> length v <> W -> length v <> 1%nat ->
  assign_2d target [v] = None.
Proof.
  intros [Hlen Hrows] HA Hl H1.
  destruct target as [|t rest]; [simpl in Hlen; lia|].
  apply Forall_cons in Hrows as [Ht _].
  assert (assign_row t v = None) as Hbad by (apply assign_row_bad; congruence).
  unfold assign_2d. case_decide.
  - destruct rest; [|discriminate]. cbn. rewrite Hbad. reflexivity.
  - cbn. rewrite Hbad. reflexivity.
Qed.

Lemma fails_at_advance_by i j W g e :
  fails_at g (i + j) W e -> fails_at (advance_by i g) j W e.
Proof.
  intros [Hfed Hbad]. split; [apply fed_advance_by, Hfed|].
  unfold advance_by. cbn [gen_values gen_pos].
  replace (i + gen_pos g + j)%nat with (gen_pos g + (i + j))%nat by lia.
  exact Hbad.
Qed.

Lemma update_fails (A W : nat) cur d g e :
  shape2 A W cur -> (0 < A)%nat ->
  initial_annulus_generator d = Some g -> fails_at g 0 W e ->
  exists d', _update cur d = (d', Raise e).
Proof.
  intros Hshape HA Hg [_ Hbad]. rewrite Nat.add_0_r in Hbad.
  unfold _update, bind, gets, next_generator. rewrite Hg.
  destruct (gen_values g (gen_pos g)) as [v|].
  - destruct Hbad as (Hl & H1 & ->).
    set (w := kernel_tap (total_convolve_rate d)).
    pose proof (np_roll1_shape A W _ (convolve2d_same_shape A W cur w w Hshape))
      as [Hlen Hrows].
    destruct (np_roll1 (convolve2d_same cur w w)) as [|row0 rest];
      [simpl in Hlen; lia|].
    apply Forall_cons in Hrows as [Hrow0 _].
    rewrite assign_row_bad by congruence. eauto.
  - subst e. eauto.
Qed.

Lemma iterate_fails (A W : nat) k : forall j cur d g e,
  shape2 A W cur -> (0 < A)%nat ->
  initial_annulus_generator d = Some g -> fails_at g j W e -> (j < k)%nat ->
  exists d', iterate k _update cur d = (d', Raise e).
Proof.
  induction k as [|k IH]; intros j cur d g e Hshape HA Hg Hfail Hjk; [lia|].
  cbn [iterate]. destruct j as [|j].
  - destruct (update_fails A W cur d g e Hshape HA Hg Hfail) as (d' & Hu).
    exists d'. apply bind_eq_Raise, Hu.
  - destruct (update_fed A W cur d g Hshape HA Hg) as (mid & Hu & Hmid & _).
    { eapply fed_weaken; [|apply Hfail]. lia. }
    rewrite (bind_eq_Ok _ _ _ _ _ Hu).
    apply (IH j mid (set_generator (Some (advance_by 1 g)) d) (advance_by 1 g) e
             Hmid HA eq_refl); [|lia].
    apply fails_at_advance_by. exact Hfail.
Qed.

Lemma record_step_fails fv (n A W : nat) j d h g e :
  state d = Some h -> shape3 n A W h -> (0 < A)%nat ->
  0 <= time d -> (Z.to_nat (time d) + 1 < n)%nat ->
  initial_annulus_generator d = Some g ->
  fails_at g j W e -> (j < applications fv)%nat ->
  exists d', record_step fv d = (d', Raise e).
Proof.
  intros Hh [Hlen Hall] HA Htime Hroom Hg Hfail Hj.
  destruct (lookup_lt_is_Some_2 h (Z.to_nat (time d)) ltac:(lia)) as [cur Hcur].
  rewrite Forall_lookup in Hall.
  destruct (iterate_fails A W (applications fv) j cur d g e
              (Hall _ _ Hcur) HA Hg Hfail Hj) as (d' & Hit).
  rewrite applications_eq in Hit. cbn [iterate] in Hit.
  unfold record_step.
  rewrite (bind_eq_Ok _ _ d d (time d)) by reflexivity.
  rewrite (bind_eq_Ok _ _ d d cur).
  2:{ eapply state_getitem_eq; [exact Hh | | exact Hcur].
      rewrite py_index_nonneg by lia. case_decide; [reflexivity | lia]. }
  unfold bind at 1 in Hit.
  destruct (_update cur d) as [d1 [mid|e1]] eqn:Hu.
  - exists d'. rewrite (bind_eq_Ok _ _ _ _ _ Hu). apply bind_eq_Raise, Hit.
  - injection Hit as <- <-. exists d1. apply bind_eq_Raise, Hu.
Qed.

Lemma loop_fails fv (n A W : nat) k : forall j d h g e,
  state d = Some h -> shape3 n A W h -> (0 < A)%nat -> 0 <= time d ->
  (Z.to_nat (time d) + k < n)%nat ->
  initial_annulus_generator d = Some g ->
  fails_at g j W e -> (j < k * applications fv)%nat ->
  exists d', for_range k (record_step fv) d = (d', Raise e).
Proof.
  induction k as [|k IH]; intros j d h g e Hh Hshape HA Htime Hroom Hg Hfail Hj;
    [lia|].
  cbn [for_range].
  destruct (decide (j < applications fv)%nat) as [Hnow|Hlater].
  - destruct (record_step_fails fv n A W j d h g e Hh Hshape HA Htime ltac:(lia)
                Hg Hfail Hnow) as (d' & Hstep).
    exists d'. apply bind_eq_Raise, Hstep.
  - destruct (record_step_fed fv n A W d h g Hh Hshape HA Htime ltac:(lia) Hg)
      as (nxt & Hnxt & Hstep).
    { eapply fed_weaken; [|apply Hfail]. lia. }
    rewrite (bind_eq_Ok _ _ _ _ _ Hstep).
    apply (IH (j - applications fv)%nat _ (<[S (Z.to_nat (time d)) := nxt]> h)
             (advance_by (applications fv) g) e).
    + reflexivity.
    + destruct Hshape as [Hlen Hall]. split; [rewrite length_insert; exact Hlen|].
      apply Forall_insert; assumption.
    + exact HA.
    + cbn [time set_state set_time]. lia.
    + cbn [time set_state set_time]. lia.
    + reflexivity.
    + apply fails_at_advance_by.
      replace (applications fv + (j - applications fv))%nat with j by lia.
      exact Hfail.
    + lia.
Qed.

(** A run whose source fails at one of the pulls it needs raises there. *)
Lemma run_simulation_fails n fv d g j e :
  0 <= n -> is_Some (np_zeros3 (F := F) (n + 1) (num_anulus d) (num_segments d)) ->
  1 <= num_anulus d -> 1 <= num_segments d -> time d = 0 ->
  initial_annulus_generator d = Some g -> seed_fits d ->
  fails_at g j (Z.to_nat (num_segments d)) e ->
  (j < seed_pulls d + Z.to_nat n * applications fv)%nat ->
  (run_simulation n fv d).2 = Raise e.
Proof.
  intros Hn Halloc HA HW Htime Hg Hfits Hfail Hj.
  set (zeros := replicate (Z.to_nat (n + 1))
                  (replicate (Z.to_nat (num_anulus d))
                     (replicate (Z.to_nat (num_segments d)) (fzero : F)))).
  assert (np_zeros3 (n + 1) (num_anulus d) (num_segments d) = Some zeros) as Hz.
  { destruct Halloc as [z Hz]. pose proof (np_zeros3_shape _ _ _ _ Hz) as (_ & _ & _ & -> & _).
    exact Hz. }
  pose proof (np_zeros3_shape _ _ _ _ Hz) as (_ & _ & _ & _ & Hshape).
  assert (zeros !! 0%nat =
            Some (replicate (Z.to_nat (num_anulus d))
                    (replicate (Z.to_nat (num_segments d)) (fzero : F)))) as Ht.
  { apply lookup_replicate_2. lia. }
  assert (shape2 (Z.to_nat (num_anulus d)) (Z.to_nat (num_segments d))
            (replicate (Z.to_nat (num_anulus d))
               (replicate (Z.to_nat (num_segments d)) (fzero : F)))) as Htarget.
  { destruct Hshape as [_ Hall]. rewrite Forall_lookup in Hall. eapply Hall, Ht. }
  unfold run_simulation.
  rewrite (bind_eq_Ok _ _ d d (num_anulus d)) by reflexivity.
  rewrite (bind_eq_Ok _ _ d d (num_segments d)) by reflexivity.
  rewrite (bind_eq_Ok _ _ d d zeros) by (rewrite Hz; reflexivity).
  rewrite (bind_eq_Ok _ _ d (set_state (Some zeros) d) tt) by reflexivity.
  destruct (decide (j < seed_pulls d)%nat) as [Hseed|Hloop].
  - (* the seeding pull itself fails *)
    unfold seed_pulls in Hseed.
    destruct (initial_state d) as [s0|] eqn:Hinit; [lia|].
    assert (j = 0%nat) as -> by lia.
    destruct Hfail as [_ Hbad]. rewrite Nat.add_0_r in Hbad.
    assert (exists d', seed_state (set_state (Some zeros) d) = (d', Raise e))
      as (d' & Hseeding).
    { unfold seed_state.
      rewrite (bind_eq_Ok _ _ _ (set_state (Some zeros) d) None)
        by (unfold gets; cbn [initial_state set_state]; rewrite Hinit; reflexivity).
      destruct (gen_values g (gen_pos g)) as [v|] eqn:Hv.
      - destruct Hbad as (Hl & H1 & ->).
        assert (next_generator (set_state (Some zeros) d) =
                  (set_generator (Some (advance_by 1 g)) (set_state (Some zeros) d),
                   Ok v)) as Hnext.
        { unfold next_generator. cbn [initial_annulus_generator set_state].
          rewrite Hg, Hv. reflexivity. }
        rewrite (bind_eq_Ok _ _ _ _ _ Hnext).
        unfold state_setitem, the_state, bind, gets.
        cbn [state set_state set_generator orRaise ret].
        rewrite py_index_nonneg by lia.
        destruct (decide (0 < Z.of_nat (length zeros))) as [_|Hno].
        2:{ apply lookup_lt_Some in Ht. lia. }
        cbn [orRaise ret]. change (Z.to_nat 0) with 0%nat. rewrite Ht.
        cbn [orRaise ret].
        rewrite (assign_2d_vector_bad _ _ _ v Htarget) by lia. eauto.
      - subst e. eexists. apply bind_eq_Raise. unfold next_generator.
        cbn [initial_annulus_generator set_state]. rewrite Hg, Hv. reflexivity. }
    rewrite (bind_eq_Raise _ _ _ _ _ Hseeding). reflexivity.
  - (* the seeding goes through and a later pull fails *)
    assert (fed g (seed_pulls d) (Z.to_nat (num_segments d))) as Hfed0.
    { eapply fed_weaken; [|apply Hfail]. lia. }
    erewrite (bind_eq_Ok seed_state).
    2:{ eapply (seed_state_fed _ _ (set_state (Some zeros) d) zeros _ g);
          [reflexivity | exact Ht | exact Htarget | reflexivity | reflexivity
          | exact Hg | exact Hfed0 | exact Hfits]. }
    destruct (loop_fails fv (Z.to_nat (n + 1)) (Z.to_nat (num_anulus d))
                (Z.to_nat (num_segments d)) (Z.to_nat n)
                (j - seed_pulls d)%nat
                (set_state
                   (Some (<[0%nat := seed_of (set_state (Some zeros) d) g]> zeros))
                   (set_generator
                      (Some (advance_by (seed_pulls (set_state (Some zeros) d)) g))
                      (set_state (Some zeros) d)))
                (<[0%nat := seed_of (set_state (Some zeros) d) g]> zeros)
                (advance_by (seed_pulls (set_state (Some zeros) d)) g) e)
      as (d' & Hfailed);
      [reflexivity | | | | | reflexivity | | | ].
    + destruct Hshape as [Hlen Hall]. split; [rewrite length_insert; exact Hlen|].
      apply Forall_insert; [exact Hall|].
      apply (seed_of_shape (set_state (Some zeros) d) g Hfed0 Hfits).
    + lia.
    + cbn [time set_state set_generator]. lia.
    + cbn [time set_state set_generator]. rewrite Htime. lia.
    + apply fails_at_advance_by.
      replace (seed_pulls (set_state (Some zeros) d) + (j - seed_pulls d))%nat
        with j by (unfold seed_pulls in *; cbn [initial_state set_state]; lia).
      exact Hfail.
    + lia.
    + rewrite (bind_eq_Raise _ _ _ _ _ Hfailed). reflexivity.
Qed.

(** X4: source exhaustion. On a run whose history numpy has allocated, when
    the source runs dry at a pull the run needs (the seeding pull or one of
    the Step Function applications), having fed the pulls before it, the
    call raises [StopIteration]. *)
Theorem exhausted_source_raises_StopIteration (num_steps flow_velocity : Z) d g j :
  0 <= num_steps ->
  is_Some (np_zeros3 (F := F) (num_steps + 1) (num_anulus d) (num_segments d)) ->
  1 <= num_anulus d -> 1 <= num_segments d -> time d = 0 ->
  initial_annulus_generator d = Some g -> seed_fits d ->
  fed g j (Z.to_nat (num_segments d)) ->
  gen_values g (gen_pos g + j)%nat = None ->
  (j < seed_pulls d + Z.to_nat num_steps * applications flow_velocity)%nat ->
  (run_simulation num_steps flow_velocity d).2 = Raise StopIteration.
Proof.
  intros Hn Halloc HA HW Htime Hg Hfits Hfed Hnone Hj.
  eapply run_simulation_fails; eauto.
  split; [exact Hfed|]. rewrite Hnone. reflexivity.
Qed.

(** X5: shape mismatch. When a pull the run needs yields a vector that has
    neither [num_segments] entries nor exactly one, the pulls before it
    being good, the call raises [ValueError]. *)
Theorem misshapen_vector_raises_ValueError (num_steps flow_velocity : Z) d g j v :
  0 <= num_steps -> 1 <= num_anulus d -> 1 <= num_segments d -> time d = 0 ->
  initial_annulus_generator d = Some g -> seed_fits d ->
  fed g j (Z.to_nat (num_segments d)) ->
  gen_values g (gen_pos g + j)%nat = Some v ->
  length v <> Z.to_nat (num_segments d) -> length v <> 1%nat ->
  (j < seed_pulls d + Z.to_nat num_steps * applications flow_velocity)%nat ->
  (run_simulation num_steps flow_velocity d).2 = Raise ValueError.
Proof.
  intros Hn HA HW Htime Hg Hfits Hfed Hv Hl H1 Hj.
  destruct (np_zeros3 (F := F) (num_steps + 1) (num_anulus d) (num_segments d))
    as [zeros|] eqn:Hz.
  - eapply run_simulation_fails; eauto.
    split; [exact Hfed|]. rewrite Hv. auto.
  - (* numpy refuses the shape of the history: the same exception *)
    unfold run_simulation.
    rewrite (bind_eq_Ok _ _ d d (num_anulus d)) by reflexivity.
    rewrite (bind_eq_Ok _ _ d d (num_segments d)) by reflexivity.
    erewrite bind_eq_Raise; [reflexivity|]. rewrite Hz. reflexivity.
Qed.
End FailingRuns.


(** ** What a call finds and what it leaves *)

Section Lifecycle.
Context {F : Type} `{Scalar F}.
Implicit Types (d : DiskPropagation F) (g : Generator F)
  (cur nxt m : list (list F)) (h : list (list (list F))) (v : list F).

Local Arguments applications : simpl never.

(** *** Computations that do not touch the observed state *)

Lemma ignores_bind {A B} (c : @M F A) (k : A -> @M F B) :
  @ignores_observed F _ c -> (forall a, @ignores_observed F _ (k a)) ->
  @ignores_observed F _ (bind c k).
Proof.
  intros Hc Hk s d. unfold bind. rewrite Hc.
  destruct (c d) as [d1 [a|e]]; cbn [fst snd]; [apply Hk | reflexivity].
Qed.

Lemma ignores_gets {A} (f : DiskPropagation F -> A) :
  (forall s d, f (set_state_ s d) = f d) -> @ignores_observed F _ (gets f).
Proof. intros Hf s d. unfold gets. rewrite Hf. reflexivity. Qed.

Lemma ignores_ret {A} (a : A) : @ignores_observed F _ (ret a).
Proof. intros s d. reflexivity. Qed.

Lemma ignores_orRaise {A} e (o : option A) : @ignores_observed F _ (orRaise e o).
Proof. intros s d. destruct o; reflexivity. Qed.

Lemma ignores_modify f :
  (forall s d, f (set_state_ s d) = set_state_ s (f d)) ->
  @ignores_observed F _ (modify f).
Proof. intros Hf s d. unfold modify. rewrite Hf. reflexivity. Qed.

Lemma ignores_for_range n (body : @M F unit) :
  @ignores_observed F _ body -> @ignores_observed F _ (for_range n body).
Proof.
  intros Hb. induction n as [|n IH]; cbn [for_range].
  - apply ignores_ret.
  - apply ignores_bind; [exact Hb | intros _; exact IH].
Qed.

Lemma ignores_iterate {A} n (f : A -> @M F A) :
  (forall x, @ignores_observed F _ (f x)) -> forall x, @ignores_observed F _ (iterate n f x).
Proof.
  intros Hf. induction n as [|n IH]; intros x; cbn [iterate].
  - apply ignores_ret.
  - apply ignores_bind; [apply Hf | exact IH].
Qed.

Lemma ignores_next_generator : @ignores_observed F _ next_generator.
Proof.
  intros s d. unfold next_generator. cbn [initial_annulus_generator set_state_].
  destruct (initial_annulus_generator d) as [g|]; [|reflexivity].
  destruct (gen_values g (gen_pos g)); reflexivity.
Qed.

Lemma ignores_the_state : @ignores_observed F _ the_state.
Proof.
  apply ignores_bind; [apply ignores_gets; reflexivity | intros; apply ignores_orRaise].
Qed.

Lemma ignores_state_getitem i : @ignores_observed F _ (state_getitem i).
Proof.
  apply ignores_bind; [apply ignores_the_state | intros st].
  apply ignores_bind; intros; apply ignores_orRaise.
Qed.

Lemma ignores_state_setitem i src : @ignores_observed F _ (state_setitem i src).
Proof.
  apply ignores_bind; [apply ignores_the_state | intros st].
  apply ignores_bind; [apply ignores_orRaise | intros k].
  apply ignores_bind; [apply ignores_orRaise | intros target].
  apply ignores_bind; [apply ignores_orRaise | intros new].
  apply ignores_modify. reflexivity.
Qed.

Lemma ignores_update cur : @ignores_observed F _ (_update cur).
Proof.
  apply ignores_bind; [apply ignores_gets; reflexivity | intros rate].
  apply ignores_bind; [apply ignores_next_generator | intros v].
  destruct (np_roll1 _) as [|row0 rest]; [intros s d; reflexivity|].
  apply ignores_bind; [apply ignores_orRaise | intros; apply ignores_ret].
Qed.

Lemma ignores_record_step fv : @ignores_observed F _ (record_step fv).
Proof.
  apply ignores_bind; [apply ignores_gets; reflexivity | intros t].
  apply ignores_bind; [apply ignores_state_getitem | intros cur].
  apply ignores_bind; [apply ignores_update | intros nxt].
  apply ignores_bind; [apply ignores_iterate, ignores_update | intros nxt'].
  apply ignores_bind; [apply ignores_modify; reflexivity | intros _].
  apply ignores_bind; [apply ignores_gets; reflexivity | intros t'].
  apply ignores_state_setitem.
Qed.

Lemma ignores_seed_state : @ignores_observed F _ seed_state.
Proof.
  apply ignores_bind; [apply ignores_gets; reflexivity | intros [s0|]].
  - apply ignores_state_setitem.
  - apply ignores_bind; [apply ignores_next_generator | intros v].
    apply ignores_state_setitem.
Qed.

Lemma ignores_extract_state : @ignores_observed F _ _extract_state.
Proof.
  apply ignores_bind; [apply ignores_gets; reflexivity | intros a].
  apply ignores_bind; [apply ignores_gets; reflexivity | intros s].
  apply ignores_bind; [apply ignores_orRaise | intros ones].
  apply ignores_bind; [apply ignores_the_state | intros; apply ignores_ret].
Qed.

Lemma overwrites_bind {A B} (c : @M F A) (k : A -> @M F B) :
  @ignores_observed F _ c -> (forall a, @overwrites_observed F _ (k a)) ->
  @overwrites_observed F _ (bind c k).
Proof.
  intros Hc Hk s d. unfold completes, bind. rewrite Hc.
  destruct (c d) as [d1 [a|e]]; cbn [fst snd]; [|intros []].
  intros Hdone. apply Hk, Hdone.
Qed.

Lemma overwrites_run_simulation n fv : @overwrites_observed F _ (run_simulation n fv).
Proof.
  apply overwrites_bind; [apply ignores_gets; reflexivity | intros a].
  apply overwrites_bind; [apply ignores_gets; reflexivity | intros s].
  apply overwrites_bind; [apply ignores_orRaise | intros zeros].
  apply overwrites_bind; [apply ignores_modify; reflexivity | intros _].
  apply overwrites_bind; [apply ignores_seed_state | intros _].
  apply overwrites_bind; [apply ignores_for_range, ignores_record_step | intros _].
  apply overwrites_bind; [apply ignores_extract_state | intros obs].
  intros s0 d _. reflexivity.
Qed.

(** The old history is gone as soon as the new one is allocated. *)
Lemma run_simulation_drops_state n fv s d :
  completes (run_simulation n fv d) ->
  run_simulation n fv (set_state s d) = run_simulation n fv d.
Proof.
  intros (u & Hrun)%completes_inv.
  pose proof Hrun as (zeros & _ & _ & _ & _ & _ & Hz & _)%run_simulation_returns.
  unfold run_simulation.
  rewrite (bind_eq_Ok _ _ (set_state s d) (set_state s d) (num_anulus d))
    by reflexivity.
  rewrite (bind_eq_Ok _ _ (set_state s d) (set_state s d) (num_segments d))
    by reflexivity.
  rewrite (bind_eq_Ok _ _ (set_state s d) (set_state s d) zeros)
    by (rewrite Hz; reflexivity).
  rewrite (bind_eq_Ok _ _ (set_state s d) (set_state (Some zeros) d) tt)
    by reflexivity.
  rewrite (bind_eq_Ok _ _ d d (num_anulus d)) by reflexivity.
  rewrite (bind_eq_Ok _ _ d d (num_segments d)) by reflexivity.
  rewrite (bind_eq_Ok _ _ d d zeros) by (rewrite Hz; reflexivity).
  rewrite (bind_eq_Ok _ _ d (set_state (Some zeros) d) tt) by reflexivity.
  reflexivity.
Qed.

(** X6: nothing of an earlier call's history or observed state reaches a
    call that returns: whatever [state] and [state_] hold when it begins, it
    ends in the same object with the same result. In particular a [reset]
    before the call changes nothing but [time]. *)
Theorem run_simulation_ignores_old_history (num_steps flow_velocity : Z) s1 s2 d :
  completes (run_simulation num_steps flow_velocity d) ->
  run_simulation num_steps flow_velocity (set_state s1 (set_state_ s2 d)) =
    run_simulation num_steps flow_velocity d /\
  (time d = 0 ->
   run_simulation num_steps flow_velocity (reset d).1 =
     run_simulation num_steps flow_velocity d).
Proof.
  intros Hdone.
  assert (forall t1 t2,
            run_simulation num_steps flow_velocity (set_state t1 (set_state_ t2 d)) =
            run_simulation num_steps flow_velocity d) as Hany.
  { intros t1 t2.
    pose proof (overwrites_run_simulation num_steps flow_velocity t2 d Hdone) as Hobs.
    rewrite run_simulation_drops_state; [exact Hobs|]. rewrite Hobs. exact Hdone. }
  split; [apply Hany|].
  intros Htime. rewrite <- (Hany None None). f_equal.
  apply disk_ext; cbn [r_in r_out num_anulus num_segments total_convolve_rate
    time initial_state state state_ initial_annulus_generator set_state set_state_
    set_time reset modify bind fst]; try reflexivity.
  symmetry. exact Htime.
Qed.

(** *** What a raising call leaves *)

Lemma keeps_on_raise_bind {A B} P (c : @M F A) (k : A -> @M F B) :
  preserves P c -> (forall a, keeps_on_raise P (k a)) ->
  keeps_on_raise P (bind c k).
Proof.
  intros Hc Hk d Hd. unfold raises, bind. specialize (Hc d Hd).
  destruct (c d) as [d1 [a|e]]; cbn [fst snd] in *.
  - apply Hk, Hc.
  - intros _. exact Hc.
Qed.

Lemma run_simulation_raise_keeps_observed (num_steps flow_velocity : Z)
    (obs : option (list (list (list F)))) :
  keeps_on_raise (fun x => state_ x = obs) (run_simulation num_steps flow_velocity).
Proof.
  set (P := fun x : DiskPropagation F => state_ x = obs).
  assert (forall st x, P x -> P (set_state st x)) as Pstate by (intros st x Hx; exact Hx).
  assert (forall gs x, P x -> P (set_generator gs x)) as Pgen
    by (intros gs x Hx; exact Hx).
  assert (forall x, P x -> P (set_time (time x + 1) x)) as Ptick
    by (intros x Hx; exact Hx).
  apply keeps_on_raise_bind; [apply preserves_gets | intros a].
  apply keeps_on_raise_bind; [apply preserves_gets | intros s].
  apply keeps_on_raise_bind; [apply preserves_orRaise | intros zeros].
  apply keeps_on_raise_bind;
    [apply preserves_modify; intros x; apply Pstate | intros _].
  apply keeps_on_raise_bind; [apply preserves_seed_state; assumption | intros _].
  apply keeps_on_raise_bind;
    [apply preserves_for_range, preserves_record_step; assumption | intros _].
  apply keeps_on_raise_bind; [apply preserves_extract_state | intros o].
  intros x _ [].
Qed.

(** X7: a call of [run_simulation] that raises leaves the observed state
    of the call before it in place (the history may already be replaced),
    so [observe] then reads stale data; the stored seed and the grid sizes
    are untouched as well. *)
Theorem raising_run_keeps_observed_state (num_steps flow_velocity : Z) d :
  raises (run_simulation num_steps flow_velocity d) ->
  state_ (run_simulation num_steps flow_velocity d).1 = state_ d /\
  initial_state (run_simulation num_steps flow_velocity d).1 = initial_state d /\
  num_anulus (run_simulation num_steps flow_velocity d).1 = num_anulus d /\
  num_segments (run_simulation num_steps flow_velocity d).1 = num_segments d.
Proof.
  intros Hraise.
  set (P := fun x : DiskPropagation F =>
              state_ x = state_ d /\ initial_state x = initial_state d /\
              num_anulus x = num_anulus d /\ num_segments x = num_segments d).
  assert (forall st x, P x -> P (set_state st x)) as Pstate by (intros st x Hx; exact Hx).
  assert (forall gs x, P x -> P (set_generator gs x)) as Pgen
    by (intros gs x Hx; exact Hx).
  assert (forall x, P x -> P (set_time (time x + 1) x)) as Ptick
    by (intros x Hx; exact Hx).
  assert (keeps_on_raise P (run_simulation num_steps flow_velocity)) as Hkeep.
  { apply keeps_on_raise_bind; [apply preserves_gets | intros a].
    apply keeps_on_raise_bind; [apply preserves_gets | intros s].
    apply keeps_on_raise_bind; [apply preserves_orRaise | intros zeros].
    apply keeps_on_raise_bind;
      [apply preserves_modify; intros x; apply Pstate | intros _].
    apply keeps_on_raise_bind; [apply preserves_seed_state; assumption | intros _].
    apply keeps_on_raise_bind;
      [apply preserves_for_range, preserves_record_step; assumption | intros _].
    apply keeps_on_raise_bind; [apply preserves_extract_state | intros obs].
    intros x _ []. }
  apply (Hkeep d); [|exact Hraise]. unfold P. auto.
Qed.

(** X8: [run_simulation] has to start from time 0. Begun at a later time
    with at least one step to record, the call raises: the cursor runs past
    the end of the history allocated for this call. *)
Theorem run_simulation_needs_time_zero (num_steps flow_velocity : Z) d :
  0 < time d -> 0 < num_steps ->
  raises (run_simulation num_steps flow_velocity d).
Proof.
  intros Htime Hsteps. unfold raises.
  destruct (run_simulation num_steps flow_velocity d) as [d' [u|e]] eqn:Hrun;
    [|exact I].
  apply run_simulation_returns in Hrun
    as (zeros & target & seed & h & ones & _ & _ & _ & _ & _ & [Hlen _] & _ & _ & Hhist).
  destruct (Hhist ltac:(lia)) as [_ Hlast].
  destruct (Hlast (Z.to_nat num_steps - 1)%nat ltac:(lia))
    as (_ & _ & nxt & _ & _ & Hnxt & _).
  apply lookup_lt_Some in Hnxt. lia.
Qed.

(** X9: on a freshly constructed object, on which [initialize] has not
    run, a call of [run_simulation] whose history numpy can allocate stores
    the zero history and then raises [AttributeError]: there is no source
    attribute to pull the seed from. *)
Theorem fresh_object_has_no_source (r_in0 r_out0 : Z) (rate : F)
    (num_steps flow_velocity : Z) :
  is_Some (np_zeros3 (F := F) (num_steps + 1) (r_out0 - r_in0 + 1) r_out0) ->
  run_simulation num_steps flow_velocity (construct r_in0 r_out0 rate) =
    (set_state
       (Some (replicate (Z.to_nat (num_steps + 1))
                (replicate (Z.to_nat (r_out0 - r_in0 + 1))
                   (replicate (Z.to_nat r_out0) fzero))))
       (construct r_in0 r_out0 rate),
     Raise AttributeError).
Proof.
  intros [zeros Hz].
  pose proof (np_zeros3_shape _ _ _ _ Hz) as (_ & _ & _ & -> & _).
  unfold run_simulation.
  rewrite (bind_eq_Ok _ _ _ (construct r_in0 r_out0 rate) (r_out0 - r_in0 + 1))
    by reflexivity.
  rewrite (bind_eq_Ok _ _ _ (construct r_in0 r_out0 rate) r_out0) by reflexivity.
  erewrite (bind_eq_Ok (orRaise _ _)); [|rewrite Hz; reflexivity].
  erewrite (bind_eq_Ok (modify _)); [|reflexivity].
  apply bind_eq_Raise. unfold seed_state.
  erewrite (bind_eq_Ok (gets _)); [|reflexivity].
  cbn [initial_state set_state construct].
  apply bind_eq_Raise. reflexivity.
Qed.

Lemma assign_row_one_entry (t : list F) (x : F) :
  assign_row t [x] = Some (replicate (length t) x).
Proof.
  unfold assign_row. case_decide as Hone; [|reflexivity].
  simpl in Hone. rewrite <- Hone. reflexivity.
Qed.

Lemma assign_2d_one_entry (A W : nat) (target : list (list F)) (x : F) :
  shape2 A W target ->
  assign_2d target [[x]] = Some (replicate A (replicate W x)).
Proof.
  intros [Hlen Hrows]. unfold assign_2d. case_decide as Hone.
  - destruct target as [|t [|t' rest]]; try discriminate.
    apply Forall_cons in Hrows as [Ht _]. subst A. cbn.
    rewrite assign_row_one_entry, Ht. reflexivity.
  - apply mapM_Some_2. subst A. clear Hone.
    induction Hrows as [|t target Ht Hrows IH]; [constructor|].
    cbn [length replicate]. constructor; [|exact IH].
    rewrite assign_row_one_entry, Ht. reflexivity.
Qed.

(** X10: numpy's broadcasting is silent about a one-entry vector. When the
    seeding pull yields [[x]], the seed snapshot of a run that returns holds
    [x] in every entry, whatever [num_segments] is. *)
Theorem one_entry_seed_is_broadcast (num_steps flow_velocity : Z) d g (x : F) :
  initial_state d = None ->
  initial_annulus_generator d = Some g ->
  gen_values g (gen_pos g) = Some [x] ->
  0 <= time d ->
  completes (run_simulation num_steps flow_velocity d) ->
  exists h,
    state (run_simulation num_steps flow_velocity d).1 = Some h /\
    h !! 0%nat =
      Some (replicate (Z.to_nat (num_anulus d))
              (replicate (Z.to_nat (num_segments d)) x)).
Proof.
  intros Hinit Hg Hv Htime (u & Hrun)%completes_inv.
  apply run_simulation_returns in Hrun
    as (zeros & target & seed & h & ones & _ & Hz & Ht & Hfrom & _ & _ & -> & _ & Hhist).
  destruct (Hhist Htime) as [Hseed _].
  apply np_zeros3_shape in Hz as (_ & _ & _ & -> & _).
  rewrite lookup_replicate in Ht. destruct Ht as [-> _].
  unfold seeded_from in Hfrom. rewrite Hinit in Hfrom.
  destruct Hfrom as (g' & v' & Hg' & Hv' & Hassign).
  assert (g' = g) as -> by congruence. assert (v' = [x]) as -> by congruence.
  exists h. split; [reflexivity|]. rewrite Hseed.
  rewrite (assign_2d_one_entry (Z.to_nat (num_anulus d)) (Z.to_nat (num_segments d)))
    in Hassign.
  - congruence.
  - split; [apply length_replicate|]. apply Forall_replicate, length_replicate.
Qed.

(** X11: [observe] hands the function the observed state and changes
    nothing. After a run that returns, that is the history with every entry
    below the diagonal multiplied by zero and every other entry by one; on
    an object that was just reset the function receives [None]. *)
Theorem observe_after_run {A} (observation_func : option (list (list (list F))) -> A)
    (num_steps flow_velocity : Z) d :
  completes (run_simulation num_steps flow_velocity d) ->
  exists h ones,
    state (run_simulation num_steps flow_velocity d).1 = Some h /\
    np_ones2 (num_anulus d) (num_segments d) = Some ones /\
    observe observation_func (run_simulation num_steps flow_velocity d).1 =
      ((run_simulation num_steps flow_velocity d).1,
       Ok (observation_func (Some (mul_broadcast h (np_triu ones))))) /\
    observe observation_func
      (reset (run_simulation num_steps flow_velocity d).1).1 =
      ((reset (run_simulation num_steps flow_velocity d).1).1,
       Ok (observation_func None)).
Proof.
  intros (u & Hrun)%completes_inv.
  apply run_simulation_returns in Hrun
    as (zeros & target & seed & h & ones & _ & _ & _ & _ & Hones & _ & -> & _).
  exists h, ones. split; [reflexivity|]. split; [exact Hones|].
  split; reflexivity.
Qed.
End Lifecycle.


(** ** Applications in a row *)

Section Flushing.
Context {F : Type} `{Scalar F}.

(** X12: as many Step Function applications in a row as the snapshot has
    annuli, or more, leave nothing of the snapshot they started from: when
    the source feeds them, they return, the source has moved by one pull per
    application, and annulus [a] of the result is the vector pulled [a]
    applications before the last one, smoothed [a] times. *)
Theorem updates_flush_snapshot (A W k : nat) (cur : list (list F))
    (d : DiskPropagation F) (g : Generator F) :
  shape2 A W cur -> (0 < A)%nat -> (A <= k)%nat ->
  initial_annulus_generator d = Some g -> fed g k W ->
  exists nxt,
    iterate k _update cur d = (set_generator (Some (advance_by k g)) d, Ok nxt) /\
    length nxt = A /\
    forall a, (a < A)%nat ->
      nxt !! a =
        Some (Nat.iter a (smooth (total_convolve_rate d)) (pulled g (k - 1 - a))).
Proof.
  intros Hshape HA Hk Hg Hfed.
  destruct (iterate_update_fed A W k cur d g Hshape HA Hg Hfed)
    as (nxt & Hit & [Hlen _] & Hrows).
  exists nxt. split; [exact Hit|]. split; [exact Hlen|].
  intros a Ha. rewrite (Hrows a Ha). unfold shifted_row.
  destruct (decide (a < k)%nat); [reflexivity | lia].
Qed.
End Flushing.

(** ** The observation mask in binary64 *)

Section Binary64Mask.
Implicit Types (d : DiskPropagation float) (x y : float).

(** Multiplying a finite binary64 number by one rounds to the number. *)
Lemma SF64mul_one (sg : bool) (m : positive) (e : Z) :
  SpecFloat.bounded prec emax m e = true ->
  SF64mul (S754_finite sg m e) (S754_finite false 4503599627370496 (-52)) =
    S754_finite sg m e.
Proof.
  unfold SpecFloat.bounded, canonical_mantissa. intros Hb.
  apply andb_prop in Hb as [Hc Hb]. apply Z.eqb_eq in Hc.
  unfold SF64mul, SFmul. rewrite Pos.mul_comm.
  replace (xorb sg false) with sg by (destruct sg; reflexivity).
  unfold binary_round_aux, shr_fexp.
  cbv beta iota delta [Pos.mul].
  cbn [shr_record_of_loc Zdigits2 digits2_pos].
  match goal with
  | |- context [ fexp prec emax ?a - ?b ] => replace (fexp prec emax a - b) with 52
  end.
  2:{ change PosDef.Pos.succ with Pos.succ. rewrite !Pos2Z.inj_succ.
      match goal with
      | |- context [ fexp prec emax ?a ] =>
          replace a with (Z.pos (digits2_pos m) + e) by lia
      end.
      rewrite Hc. lia. }
  cbn [shr SpecFloat.iter_pos shr_1 orb shr_m shr_r shr_s loc_of_shr_record
       round_nearest_even Zdigits2].
  replace (e + -52 + 52) with e by lia.
  rewrite Hc, Z.sub_diag. cbn [shr shr_m]. rewrite Hb. reflexivity.
Qed.

(** [x * 1] is [x], for every binary64 value: zeros keep their sign,
    infinities and nan stay what they are. *)
Lemma float_mul_one x : fmul x fone = x.
Proof.
  cbn [fmul fone float64]. apply Prim2SF_inj. rewrite mul_spec.
  change (Prim2SF 1) with (S754_finite false 4503599627370496 (-52)).
  pose proof (Prim2SF_valid x) as Hv.
  destruct (Prim2SF x) as [sg | sg | | sg m e];
    try (destruct sg; reflexivity); try reflexivity.
  apply SF64mul_one. exact Hv.
Qed.

(** [x * 0] compares equal to zero when [x] is finite (it is [-0.0] for a
    negative [x]) and is nan when [x] is an infinity or nan. *)
Lemma float_mul_zero x :
  if is_finite x then PrimFloat.eqb (fmul x fzero) 0 = true
  else is_nan (fmul x fzero) = true.
Proof.
  cbn [fmul fzero float64]. unfold is_finite, is_nan, is_infinity.
  rewrite !FloatAxioms.eqb_spec, abs_spec, mul_spec.
  change (Prim2SF 0) with (S754_zero false).
  change (Prim2SF infinity) with (S754_infinity false).
  destruct (Prim2SF x) as [sg | sg | | sg m e]; cbn; try reflexivity.
  - destruct sg; reflexivity.
  - rewrite Pos.compare_cont_refl, Z.compare_refl. destruct sg; reflexivity.
Qed.

(** C4: in binary64, after a call of [run_simulation] that returns, the
    observed state has the shape of the history (an entry exists in one
    exactly where it exists in the other); where the annulus index does not
    exceed the segment index it holds the history entry itself; where the
    annulus index exceeds the segment index it holds the history entry times
    zero, which compares equal to zero when the history entry is finite and
    is nan when the history entry is an infinity or nan. After a call that
    raises, the observed state is the one the call found, whatever the
    history has become. *)
Theorem observed_state_masks_history (num_steps flow_velocity : Z) d :
  (completes (run_simulation num_steps flow_velocity d) ->
   exists h obs,
     state (run_simulation num_steps flow_velocity d).1 = Some h /\
     state_ (run_simulation num_steps flow_velocity d).1 = Some obs /\
     length obs = length h /\
     (forall t a s, is_Some (entry3 obs t a s) <-> is_Some (entry3 h t a s)) /\
     (forall t a s x, entry3 h t a s = Some x -> (a <= s)%nat ->
        entry3 obs t a s = Some x) /\
     (forall t a s x, entry3 h t a s = Some x -> (a > s)%nat ->
        exists y, entry3 obs t a s = Some y /\
          if is_finite x then PrimFloat.eqb y 0 = true else is_nan y = true)) /\
  (raises (run_simulation num_steps flow_velocity d) ->
   state_ (run_simulation num_steps flow_velocity d).1 = state_ d).
Proof.
  split.
  - intros (h & obs & Hh & Hobs & Hlen & Hprod)%observed_state_products.
    exists h, obs.
    split; [exact Hh|]. split; [exact Hobs|]. split; [exact Hlen|].
    split; [|split].
    + intros t a s. rewrite Hprod. apply fmap_is_Some.
    + intros t a s x Hx Hle. rewrite Hprod, Hx. simpl.
      destruct (decide (a <= s)%nat); [|lia]. rewrite float_mul_one. reflexivity.
    + intros t a s x Hx Hgt. rewrite Hprod, Hx. simpl.
      destruct (decide (a <= s)%nat); [lia|].
      eexists. split; [reflexivity|]. apply float_mul_zero.
  - intros Hraise.
    apply (run_simulation_raise_keeps_observed num_steps flow_velocity (state_ d) d);
      [reflexivity | exact Hraise].
Qed.
End Binary64Mask.

(** C4 on the run of one step after [initialize], which returns, and on a
    second run begun where the first one left the time cursor, which
    raises. *)
Lemma observed_state_masks_history_witness :
  (exists h obs,
     state (run_simulation 1 1 disk_ready).1 = Some h /\
     state_ (run_simulation 1 1 disk_ready).1 = Some obs /\
     length obs = length h /\
     (forall t a s, is_Some (entry3 obs t a s) <-> is_Some (entry3 h t a s)) /\
     (forall t a s x, entry3 h t a s = Some x -> (a <= s)%nat ->
        entry3 obs t a s = Some x) /\
     (forall t a s x, entry3 h t a s = Some x -> (a > s)%nat ->
        exists y, entry3 obs t a s = Some y /\
          if is_finite x then PrimFloat.eqb y 0 = true else is_nan y = true)) /\
  state_ (run_simulation 1 1 (run_simulation 1 1 disk_ready).1).1 =
    state_ (run_simulation 1 1 disk_ready).1.
Proof.
  split.
  - apply (observed_state_masks_history 1 1 disk_ready). vm_compute. exact I.
  - apply (observed_state_masks_history 1 1 (run_simulation 1 1 disk_ready).1).
    vm_compute. exact I.
Defined.

(** Where C4 as worded fails. With the finite rate [2.0 ** 700] and the
    source of ones, [initialize] returns and its warm-up overflows: the run
    of one step after it returns with the history entry [infinity] at annulus 2,
    segment 0, and the observed entry there is nan, which does not compare
    equal to zero. And after the run of one step on [disk_ready], a second
    such run raises [IndexError] and leaves a history whose slice 1 is zero
    at annulus 0, segment 0, under an observed state that still holds 1
    there. *)
Lemma observed_state_not_masked :
  (completes (initialize (fun _ => ones_forever) (construct 1 3 0x1p700%float)) /\
   completes (run_simulation 1 1 disk_hot) /\
   state (run_simulation 1 1 disk_hot).1 ≫= (fun h => entry3 h 0 2 0) =
     Some infinity /\
   state_ (run_simulation 1 1 disk_hot).1 ≫= (fun obs => entry3 obs 0 2 0) =
     Some nan /\
   PrimFloat.eqb nan 0 = false) /\
  ((run_simulation 1 1 (run_simulation 1 1 disk_ready).1).2 = Raise IndexError /\
   state (run_simulation 1 1 (run_simulation 1 1 disk_ready).1).1
     ≫= (fun h => entry3 h 1 0 0) = Some 0%float /\
   state_ (run_simulation 1 1 (run_simulation 1 1 disk_ready).1).1
     ≫= (fun obs => entry3 obs 1 0 0) = Some 1%float).
Proof. vm_compute. repeat split. Qed.

(** ** The further properties, at concrete runs *)

Lemma ones_forever_fed k : fed ones_forever k 3.
Proof. intros i _. exists ones_row. split; reflexivity. Qed.

Lemma two_good_pulls (g : Generator float) :
  gen_pos g = 0%nat ->
  gen_values g 0%nat = Some ones_row -> gen_values g 1%nat = Some ones_row ->
  fed g 2 3.
Proof.
  intros Hpos H0 H1 i Hi. exists ones_row. rewrite Hpos.
  destruct i as [|[|i]]; [split; [exact H0 | reflexivity]
                         | split; [exact H1 | reflexivity] | lia].
Qed.

Lemma run_simulation_returns_when_fed_witness :
  completes (run_simulation 2 2 disk_rate0) /\
  time (run_simulation 2 2 disk_rate0).1 = 2 /\
  length <$> state (run_simulation 2 2 disk_rate0).1 = Some (S (Z.to_nat 2)) /\
  initial_annulus_generator (run_simulation 2 2 disk_rate0).1 =
    Some (advance_by (seed_pulls disk_rate0 + Z.to_nat 2 * applications 2)
            ones_forever).
Proof.
  apply (run_simulation_returns_when_fed 2 2 disk_rate0 ones_forever).
  - lia.
  - eexists. vm_compute. reflexivity.
  - vm_compute. discriminate.
  - vm_compute. discriminate.
  - reflexivity.
  - reflexivity.
  - apply ones_forever_fed.
  - exact I.
Defined.

Lemma run_simulation_history_closed_form_witness :
  exists h,
    state (run_simulation 2 2 disk_rate0).1 = Some h /\
    forall t a, (t <= Z.to_nat 2)%nat -> (a < Z.to_nat (num_anulus disk_rate0))%nat ->
      h !! t ≫= (.!! a) =
        shifted_row (total_convolve_rate disk_rate0)
          (advance_by (seed_pulls disk_rate0) ones_forever)
          (t * applications 2) (seed_of disk_rate0 ones_forever) a.
Proof.
  apply (run_simulation_history_closed_form 2 2 disk_rate0 ones_forever).
  - lia.
  - eexists. vm_compute. reflexivity.
  - vm_compute. discriminate.
  - vm_compute. discriminate.
  - reflexivity.
  - reflexivity.
  - apply ones_forever_fed.
  - exact I.
Defined.

Lemma initialize_fills_every_annulus_witness :
  completes (initialize (fun _ => ones_forever) (construct 1 3 0.5%float)) /\
  time (initialize (fun _ => ones_forever) (construct 1 3 0.5%float)).1 = 0 /\
  initial_annulus_generator
    (initialize (fun _ => ones_forever) (construct 1 3 0.5%float)).1 =
    Some (advance_by
            (seed_pulls (construct 1 3 0.5%float) +
             Z.to_nat (num_anulus (construct 1 3 0.5%float))) ones_forever) /\
  exists s0,
    initial_state (initialize (fun _ => ones_forever) (construct 1 3 0.5%float)).1 =
      Some s0 /\
    forall a, (a < Z.to_nat (num_anulus (construct 1 3 0.5%float)))%nat ->
      s0 !! a =
        Some (Nat.iter a (smooth (total_convolve_rate (construct 1 3 0.5%float)))
                (pulled ones_forever
                   (seed_pulls (construct 1 3 0.5%float) +
                    (Z.to_nat (num_anulus (construct 1 3 0.5%float)) - 1 - a)))).
Proof.
  apply (initialize_fills_every_annulus (fun _ => ones_forever)
           (construct 1 3 0.5%float)).
  - eexists. vm_compute. reflexivity.
  - vm_compute. discriminate.
  - vm_compute. discriminate.
  - reflexivity.
  - exact I.
  - apply ones_forever_fed.
Defined.

Lemma exhausted_source_raises_StopIteration_witness :
  (run_simulation 3 1 (disk_with two_pulls)).2 = Raise StopIteration.
Proof.
  apply (exhausted_source_raises_StopIteration 3 1 (disk_with two_pulls) two_pulls 2).
  - lia.
  - eexists. vm_compute. reflexivity.
  - vm_compute. discriminate.
  - vm_compute. discriminate.
  - reflexivity.
  - reflexivity.
  - exact I.
  - apply two_good_pulls; reflexivity.
  - reflexivity.
  - vm_compute. lia.
Defined.

Lemma misshapen_vector_raises_ValueError_witness :
  (run_simulation 3 1 (disk_with bad_third)).2 = Raise ValueError.
Proof.
  apply (misshapen_vector_raises_ValueError 3 1 (disk_with bad_third) bad_third 2
           [1%float; 1%float]).
  - lia.
  - vm_compute. discriminate.
  - vm_compute. discriminate.
  - reflexivity.
  - reflexivity.
  - exact I.
  - apply two_good_pulls; reflexivity.
  - reflexivity.
  - vm_compute. lia.
  - vm_compute. lia.
  - vm_compute. lia.
Defined.

Lemma run_simulation_ignores_old_history_witness :
  run_simulation 2 1 (set_state (Some []) (set_state_ None disk_ready)) =
    run_simulation 2 1 disk_ready /\
  (time disk_ready = 0 ->
   run_simulation 2 1 (reset disk_ready).1 = run_simulation 2 1 disk_ready).
Proof.
  apply (run_simulation_ignores_old_history 2 1 (Some []) None disk_ready).
  vm_compute. exact I.
Defined.

Lemma raising_run_keeps_observed_state_witness :
  state_ (run_simulation 1 1 (run_simulation 1 1 disk_ready).1).1 =
    state_ (run_simulation 1 1 disk_ready).1 /\
  initial_state (run_simulation 1 1 (run_simulation 1 1 disk_ready).1).1 =
    initial_state (run_simulation 1 1 disk_ready).1 /\
  num_anulus (run_simulation 1 1 (run_simulation 1 1 disk_ready).1).1 =
    num_anulus (run_simulation 1 1 disk_ready).1 /\
  num_segments (run_simulation 1 1 (run_simulation 1 1 disk_ready).1).1 =
    num_segments (run_simulation 1 1 disk_ready).1.
Proof.
  apply (raising_run_keeps_observed_state 1 1 (run_simulation 1 1 disk_ready).1).
  vm_compute. exact I.
Defined.

Lemma run_simulation_needs_time_zero_witness :
  raises (run_simulation 1 1 (run_simulation 1 1 disk_ready).1).
Proof.
  apply (run_simulation_needs_time_zero 1 1 (run_simulation 1 1 disk_ready).1).
  - vm_compute. reflexivity.
  - lia.
Defined.

Lemma fresh_object_has_no_source_witness :
  run_simulation 2 1 (construct 1 3 0.5%float) =
    (set_state
       (Some (replicate (Z.to_nat (2 + 1))
                (replicate (Z.to_nat (3 - 1 + 1))
                   (replicate (Z.to_nat 3) fzero))))
       (construct 1 3 0.5%float),
     Raise AttributeError).
Proof.
  apply (fresh_object_has_no_source 1 3 0.5%float 2 1).
  eexists. vm_compute. reflexivity.
Defined.

Lemma one_entry_seed_is_broadcast_witness :
  exists h,
    state (run_simulation 1 1 (disk_with sevens)).1 = Some h /\
    h !! 0%nat =
      Some (replicate (Z.to_nat (num_anulus (disk_with sevens)))
              (replicate (Z.to_nat (num_segments (disk_with sevens))) 7%float)).
Proof.
  apply (one_entry_seed_is_broadcast 1 1 (disk_with sevens) sevens 7%float).
  - reflexivity.
  - reflexivity.
  - reflexivity.
  - vm_compute. discriminate.
  - vm_compute. exact I.
Defined.

Lemma observe_after_run_witness :
  exists h ones,
    state (run_simulation 1 1 disk_ready).1 = Some h /\
    np_ones2 (num_anulus disk_ready) (num_segments disk_ready) = Some ones /\
    observe count_slices (run_simulation 1 1 disk_ready).1 =
      ((run_simulation 1 1 disk_ready).1,
       Ok (count_slices (Some (mul_broadcast h (np_triu ones))))) /\
    observe count_slices (reset (run_simulation 1 1 disk_ready).1).1 =
      ((reset (run_simulation 1 1 disk_ready).1).1, Ok (count_slices None)).
Proof.
  apply (observe_after_run count_slices 1 1 disk_ready).
  vm_compute. exact I.
Defined.

Lemma updates_flush_snapshot_witness :
  exists nxt,
    iterate 3 _update sample_snapshot disk_rate0 =
      (set_generator (Some (advance_by 3 ones_forever)) disk_rate0, Ok nxt) /\
    length nxt = 3%nat /\
    forall a, (a < 3)%nat ->
      nxt !! a =
        Some (Nat.iter a (smooth (total_convolve_rate disk_rate0))
                (pulled ones_forever (3 - 1 - a))).
Proof.
  apply (updates_flush_snapshot 3 3 3 sample_snapshot disk_rate0 ones_forever).
  - split; [reflexivity|]. repeat constructor.
  - lia.
  - lia.
  - reflexivity.
  - apply ones_forever_fed.
Defined.
